(** * CWA Predictor: the grade-target solve of [cwa_app.py]

    A shallow embedding of [predict_scores_cvxpy] (cwa_app.py, lines 140-186)
    and of the library calls it makes, followed by the properties of the
    function that the specification states.

    Python floats are idealised by exact rationals ([Q]); every statement
    below is about exact arithmetic.  The convex-optimisation library is not
    part of the repository: [cp.Variable_] only records the shape of the
    variable, and [prob.solve()] is a parameter of the function,
    constrained where needed by the contract [exact_solver]. *)

From Stdlib Require Import String Bool ZArith QArith Qround Qabs Lqa Lia List.
From Stdlib Require Import Decimal DecimalString.
From Stdlib Require DecimalNat.
From Stdlib Require Import Permutation.
Import ListNotations.
Local Open Scope Q_scope.

(** ** Python outcomes: a call returns a value or raises *)

Inductive exn : Type :=
| IndexError (msg : string)
| SolverError (msg : string).

Inductive outcome (A : Type) : Type :=
| Returned (a : A)
| Raised (e : exn).

Arguments Returned {A} a.
Arguments Raised {A} e.

Definition bind {A B : Type} (c : outcome A) (k : A -> outcome B) : outcome B :=
  match c with
  | Returned a => k a
  | Raised e => Raised e
  end.

Notation "x <- c ;; k" := (bind c (fun x => k))
  (at level 61, c at next level, right associativity).

(** ** numpy *)

Module np.

(** [ndarray.sum()] of a one-dimensional array; the empty array sums to 0. *)
Definition sum (a : list Q) : Q := fold_right Qplus 0 a.

(** [a @ b] for one-dimensional arrays of the same length. *)
Fixpoint dot (a b : list Q) : Q :=
  match a, b with
  | x :: a', y :: b' => x * y + dot a' b'
  | _, _ => 0
  end.

(** [np.rint]: the nearest integer, a tie going to the even neighbour. *)
Definition rint (x : Q) : Z :=
  let f := Qfloor x in
  match Qcompare (x - inject_Z f) (1 # 2) with
  | Lt => f
  | Gt => (f + 1)%Z
  | Eq => if Z.even f then f else (f + 1)%Z
  end.

(** [np.round(x, decimals)]: scale by [10 ** decimals], [rint], scale back. *)
Definition round (x : Q) (decimals : nat) : Q :=
  let scale := inject_Z (10 ^ Z.of_nat decimals) in
  Qred (inject_Z (rint (x * scale)) / scale).

End np.

(** ** cvxpy *)

Module cp.

(** The status constants of [cvxpy.settings] that the source names. *)
Definition OPTIMAL : string := "optimal".
Definition OPTIMAL_INACCURATE : string := "optimal_inaccurate".
Definition INFEASIBLE : string := "infeasible".

(** A vector variable and its shape. *)
Record variable : Type := { shape : nat }.

(** [cp.Variable(n)] (the name carries an underscore, [Variable] being a
    keyword here): a vector variable of shape [(n,)], for every length
    [len(credits)] can take, the empty shape [(0,)] included. *)
Definition Variable_ (n : nat) : outcome variable :=
  Returned {| shape := n |}.

(** The problem of lines 154-163:
      minimise   credits @ scores
      subject to credits @ scores >= required_points,
                 scores >= 0, scores <= 100. *)
Record Problem : Type := {
  scores : variable;
  credits : list Q;
  required_points : Q
}.

(** What the source reads after [prob.solve()]: [prob.status] and
    [scores.value] ([None] when the solver assigned no values). *)
Record Solution : Type := {
  status : string;
  value : option (list Q)
}.

End cp.

(** ** The data of the application *)

(** A submitted course: a dict with the key "credit" and, read through
    [c.get("name", ...)], an optional key "name". *)
Record Course : Type := {
  course_name : option string;
  course_credit : Q
}.

(** The value stored under "score": a float, or the string "N/A". *)
Inductive pyval : Type :=
| PyFloat (x : Q)
| PyStr (s : string).

(** One dict of [results]. *)
Record Entry : Type := {
  name : string;
  credit : Q;
  score : pyval
}.

(** [str(n)] for a natural number. *)
Definition str (n : nat) : string := NilEmpty.string_of_uint (Nat.to_uint n).

(** [c.get("name", f"Course {i+1}")]. *)
Definition get_name (i : nat) (c : Course) : string :=
  match course_name c with
  | Some s => s
  | None => ("Course " ++ str (i + 1))%string
  end.

(** [scores.value[i]]. *)
Definition getitem (v : list Q) (i : nat) : outcome Q :=
  match nth_error v i with
  | Some x => Returned x
  | None => Raised (IndexError "index out of bounds")
  end.

(** [prob.status in [cp.OPTIMAL, cp.OPTIMAL_INACCURATE]]. *)
Definition status_in (st : string) (l : list string) : bool :=
  existsb (String.eqb st) l.

(** Lines 141-148: the credit-weighted points the new courses must bring. *)
Definition required_points (courses : list Course)
    (current_total_credits current_cwa target_cwa : Q) : Q :=
  let credits := map course_credit courses in
  let prev_points := current_cwa * current_total_credits in
  let total_credits_after := current_total_credits + np.sum credits in
  let target_points := target_cwa * total_credits_after in
  target_points - prev_points.

(** Lines 170-175: the loop of the first branch, from index [i] on. *)
Fixpoint scored_results (i : nat) (courses : list Course) (value : list Q)
    : outcome (list Entry) :=
  match courses with
  | [] => Returned []
  | c :: rest =>
      x <- getitem value i ;;
      tl <- scored_results (S i) rest value ;;
      Returned ({| name := get_name i c;
                   credit := course_credit c;
                   score := PyFloat (np.round x 2) |} :: tl)
  end.

(** Lines 179-184: the loop of the second branch, from index [i] on. *)
Fixpoint unavailable_results (i : nat) (courses : list Course) : list Entry :=
  match courses with
  | [] => []
  | c :: rest =>
      {| name := get_name i c;
         credit := course_credit c;
         score := PyStr "N/A" |} :: unavailable_results (S i) rest
  end.

(** Lines 140-186.  [solve] stands for [prob.solve()]: it receives the
    problem and yields the status and the values read afterwards. *)
Definition predict_scores_cvxpy (solve : cp.Problem -> outcome cp.Solution)
    (courses : list Course) (current_total_credits current_cwa target_cwa : Q)
    : outcome (list Entry * string) :=
  let credits := map course_credit courses in
  let n := length credits in
  let required :=
    required_points courses current_total_credits current_cwa target_cwa in
  scores <- cp.Variable_ n ;;
  let prob := {| cp.scores := scores;
                 cp.credits := credits;
                 cp.required_points := required |} in
  sol <- solve prob ;;
  match status_in (cp.status sol) [cp.OPTIMAL; cp.OPTIMAL_INACCURATE],
        cp.value sol with
  | true, Some value =>
      results <- scored_results 0 courses value ;;
      Returned (results, cp.status sol)
  | _, _ =>
      Returned (unavailable_results 0 courses, cp.status sol)
  end.

(** ** The linear program and the contract on the solver *)

(** [scores >= 0] and [scores <= 100]. *)
Definition in_box (s : list Q) : Prop :=
  Forall (fun x => 0 <= x /\ x <= 100) s.

(** [s] satisfies the three constraints of the problem. *)
Definition feasible (p : cp.Problem) (s : list Q) : Prop :=
  List.length s = cp.shape (cp.scores p)
  /\ cp.required_points p <= np.dot (cp.credits p) s
  /\ in_box s.

(** [v] is feasible and no feasible point has a smaller objective. *)
Definition optimal (p : cp.Problem) (v : list Q) : Prop :=
  feasible p v
  /\ forall s, feasible p s -> np.dot (cp.credits p) v <= np.dot (cp.credits p) s.

(** The problems [cp.Problem] accepts: the variable has the dimension of
    the coefficient vector, so that [credits @ scores] is defined. *)
Definition well_formed (p : cp.Problem) : Prop :=
  cp.shape (cp.scores p) = List.length (cp.credits p).

(** The contract on [prob.solve()] in exact arithmetic: on a well-formed
    problem it returns either the status OPTIMAL with an optimal point, or
    the status INFEASIBLE with no values when no point is feasible. *)
Definition exact_solver (solve : cp.Problem -> outcome cp.Solution) : Prop :=
  forall p, well_formed p ->
    (exists v, solve p = Returned {| cp.status := cp.OPTIMAL; cp.value := Some v |}
               /\ optimal p v)
    \/ (solve p = Returned {| cp.status := cp.INFEASIBLE; cp.value := None |}
        /\ forall s, ~ feasible p s).

(** A weaker contract: whatever the status, the values the solver assigns
    on a well-formed problem respect the bounds of the variable. *)
Definition respects_bounds (solve : cp.Problem -> outcome cp.Solution) : Prop :=
  forall p sol v,
    well_formed p -> solve p = Returned sol -> cp.value sol = Some v -> in_box v.

(** ** Inputs and results as the specification speaks of them *)

(** Every course has a positive credit. *)
Definition positive_credits (courses : list Course) : Prop :=
  Forall (fun c => 0 < course_credit c) courses.

(** The weighted total reached with every score at 100. *)
Definition max_points (courses : list Course) : Q :=
  np.sum (map (fun c => course_credit c * 100) courses).

(** The numeric scores of a result list, when every score is a float. *)
Fixpoint float_scores (results : list Entry) : option (list Q) :=
  match results with
  | [] => Some []
  | e :: tl =>
      match score e, float_scores tl with
      | PyFloat x, Some xs => Some (x :: xs)
      | _, _ => None
      end
  end.

(** The credit-weighted total of the scores of a result list. *)
Definition weighted_total (results : list Entry) : option Q :=
  match float_scores results with
  | Some xs => Some (np.dot (map credit results) xs)
  | None => None
  end.

(** The relative tolerance the specification names. *)
Definition rel_tol : Q := 1 # 1000000.

(** What two decimal places leave of a score: at most half a hundredth. *)
Definition half_cent : Q := 1 # 200.

(** The entry of course [c] at index [i] carrying the score [sc]. *)
Definition entry_of (i : nat) (c : Course) (sc : pyval) : Entry :=
  {| name := get_name i c; credit := course_credit c; score := sc |}.

(** The problem that lines 157-163 build from a course list. *)
Definition problem_of (courses : list Course)
    (current_total_credits current_cwa target_cwa : Q) : cp.Problem :=
  {| cp.scores := {| cp.shape := List.length courses |};
     cp.credits := map course_credit courses;
     cp.required_points :=
       required_points courses current_total_credits current_cwa target_cwa |}.

(** The result list of the first branch when the values [xs] line up with
    the courses, one value per course. *)
Fixpoint scored_entries (i : nat) (courses : list Course) (xs : list Q)
    : list Entry :=
  match courses, xs with
  | c :: rest, x :: xs' =>
      entry_of i c (PyFloat (np.round x 2)) :: scored_entries (S i) rest xs'
  | _, _ => []
  end.

(** The entry [e] is that of the course [c]: its credit, its name when it
    has one, and a score that satisfies [ok]. *)
Definition carries (ok : pyval -> Prop) (c : Course) (e : Entry) : Prop :=
  credit e = course_credit c
  /\ (forall s, course_name c = Some s -> name e = s)
  /\ ok (score e).

(** The score is the marker. *)
Definition unavailable (sc : pyval) : Prop := sc = PyStr "N/A".

(** A score as the specification allows it: the marker, or a number of
    [0, 100] that is a whole number of hundredths. *)
Definition presentable (sc : pyval) : Prop :=
  unavailable sc
  \/ exists (x : Q) (z : Z),
       sc = PyFloat x /\ (0 <= x /\ x <= 100) /\ x == z # 100.

(** ** A reference solver

    An exact solver for the problem above, written out so that the contract
    [exact_solver] is known to have an instance.  It starts from the point of
    least objective (100 where the credit is negative, 0 elsewhere) and moves
    one coordinate after the other until the constraint is met. *)

Definition pos_part (c : Q) : Q := if Qle_bool c 0 then 0 else c.
Definition neg_part (c : Q) : Q := if Qle_bool c 0 then c else 0.

(** The greatest and the least value of [credits @ s] over the box. *)
Definition highest (credits : list Q) : Q :=
  np.sum (map (fun c => 100 * pos_part c) credits).
Definition lowest (credits : list Q) : Q :=
  np.sum (map (fun c => 100 * neg_part c) credits).

(** The part of [need] that a coordinate of capacity [cap] takes. *)
Definition take (need cap : Q) : Q :=
  if Qle_bool need 0 then 0
  else if Qle_bool cap need then cap else need.

Fixpoint fill (credits : list Q) (need : Q) : list Q :=
  match credits with
  | [] => []
  | c :: rest =>
      let a := take need (100 * Qabs c) in
      (if Qle_bool c 0
       then (if Qle_bool 0 c then 0 else 100 + a / c)
       else a / c) :: fill rest (need - a)
  end.

Definition reference_solver (p : cp.Problem) : outcome cp.Solution :=
  let cs := cp.credits p in
  if Qle_bool (cp.required_points p) (highest cs)
  then Returned {| cp.status := cp.OPTIMAL;
                   cp.value := Some (fill cs (cp.required_points p - lowest cs)) |}
  else Returned {| cp.status := cp.INFEASIBLE; cp.value := None |}.

(** A solver that reports the same status and values whatever the problem. *)
Definition const_solver (st : string) (v : option (list Q))
    : cp.Problem -> outcome cp.Solution :=
  fun _ => Returned {| cp.status := st; cp.value := v |}.

(** ** The scenarios of the specification *)

Definition course (nm : string) (cr : Q) : Course :=
  {| course_name := Some nm; course_credit := cr |}.

(** Scenario A: 78.5 over 78 credits, target 85, three courses of credit 3. *)
Definition scenarioA : list Course := [course "A" 3; course "B" 3; course "C" 3].

(** Scenario B: 70 over 60 credits, target 72, two courses of credit 3. *)
Definition scenarioB : list Course := [course "A" 3; course "B" 3].

(** Scenario C: 90 over 30 credits, target 85, one course of credit 3. *)
Definition scenarioC : list Course := [course "A" 3].


(** ** The page around the function (cwa_app.py, lines 78-123, 190-223) *)

(** A row of [st.session_state.courses_list]: a dict with the keys "name"
    and "credit". *)
Record Row : Type := {
  row_name : string;
  row_credit : Q
}.

(** The row that "Add Course" appends: [{"name": "", "credit": 0.0}]. *)
Definition blank_row : Row := {| row_name := ""; row_credit := 0 |}.

(** Lines 87-91: one click on "Add Course", with the integer read from
    "Courses Taken".  The boolean tells whether the warning
    "Max courses reached." is shown. *)
Definition add_course (courses_taken : Z) (courses_list : list Row)
    : list Row * bool :=
  if (Z.of_nat (List.length courses_list) <? courses_taken)%Z
  then (courses_list ++ [blank_row], false)
  else (courses_list, true).

(** Lines 118-122: the list that "Submit" stores in [final_courses]. *)
Fixpoint submit (courses_list : list Row) : list Course :=
  match courses_list with
  | [] => []
  | c :: rest =>
      if negb (String.eqb (row_name c) "")
      then {| course_name := Some (row_name c);
              course_credit := row_credit c |} :: submit rest
      else submit rest
  end.

(** Lines 210-223: what the "Goal Feasibility" card shows. *)
Inductive Card : Type :=
| Optimal_solution_found (table : list Entry)
| Target_not_achievable
| Solver_issue (status : string).

Definition feasibility_card (scores : list Entry) (status : string) : Card :=
  if status_in status [cp.OPTIMAL; cp.OPTIMAL_INACCURATE]
  then Optimal_solution_found scores
  else if String.eqb status cp.INFEASIBLE
       then Target_not_achievable
       else Solver_issue status.

(** Lines 190-223 of one run of the page: the function is called on
    [final_courses] and the card is drawn from what it returns; when it
    raises, the run ends there.  [total_credits], the expected total of
    line 54, is in scope but read only by the credit message of lines
    125-134, which compares sums of floats and is left out here. *)
Definition grade_calculator (solve : cp.Problem -> outcome cp.Solution)
    (final_courses : list Course)
    (total_credits current_total_credits current_cwa target_cwa : Q)
    : outcome Card :=
  r <- predict_scores_cvxpy solve final_courses
         current_total_credits current_cwa target_cwa ;;
  Returned (feasibility_card (fst r) (snd r)).

(** The cumulative average after the new courses, were the returned
    scores obtained. *)
Definition average_after (current_total_credits current_cwa : Q)
    (results : list Entry) (xs : list Q) : Q :=
  (current_cwa * current_total_credits + np.dot (map credit results) xs)
  / (current_total_credits + np.sum (map credit results)).

(** What a call leaves once the names are forgotten: the credit and the
    score of each entry, and the status; or the exception. *)
Definition scores_and_status (r : outcome (list Entry * string))
    : outcome (list (Q * pyval) * string) :=
  match r with
  | Returned (results, st) =>
      Returned (map (fun e => (credit e, score e)) results, st)
  | Raised e => Raised e
  end.

(** The name of each entry as lines 172 and 181 compute it, from index [i]
    on. *)
Fixpoint names_from (i : nat) (courses : list Course) : list string :=
  match courses with
  | [] => []
  | c :: rest => get_name i c :: names_from (S i) rest
  end.

(** The highest cumulative average within reach: every new score at 100. *)
Definition best_average (courses : list Course)
    (current_total_credits current_cwa : Q) : Q :=
  (current_cwa * current_total_credits + max_points courses)
  / (current_total_credits + np.sum (map course_credit courses)).

(** ** The other page of the repository (aura_web.py) *)

Module aura.

(** [len(testimonials)], lines 470-483. *)
Definition n_testimonials : Z := 3.

(** Lines 489 and 496: the index after "Prev" and after "Next";
    [%] with a positive modulus is the floored remainder. *)
Definition prev (testimonial_index : Z) : Z :=
  ((testimonial_index - 1) mod n_testimonials)%Z.

Definition next (testimonial_index : Z) : Z :=
  ((testimonial_index + 1) mod n_testimonials)%Z.

Inductive button : Type := Prev | Next.

Definition press (i : Z) (b : button) : Z :=
  match b with
  | Prev => prev i
  | Next => next i
  end.

(** [st.session_state.clicks]: a dict from labels to counts, keys in
    insertion order. *)
Definition clicks_dict : Type := list (string * Z).

(** [clicks.get(label, 0)]. *)
Fixpoint get (clicks : clicks_dict) (label : string) (default : Z) : Z :=
  match clicks with
  | [] => default
  | (k, v) :: rest => if String.eqb k label then v else get rest label default
  end.

(** [clicks[label] = v]: an existing key keeps its place, a new one goes
    last. *)
Fixpoint setitem (clicks : clicks_dict) (label : string) (v : Z) : clicks_dict :=
  match clicks with
  | [] => [(label, v)]
  | (k, w) :: rest =>
      if String.eqb k label then (k, v) :: rest
      else (k, w) :: setitem rest label v
  end.

(** Lines 93-95. *)
Definition track_click (label : string) (clicks : clicks_dict) : clicks_dict :=
  setitem clicks label (get clicks label 0 + 1)%Z.

End aura.

(** * Properties *)

(** ** Rounding *)

Section Rounding.

Lemma rint_near (y : Q) :
  inject_Z (np.rint y) - (1 # 2) <= y /\ y <= inject_Z (np.rint y) + (1 # 2).
Proof.
  unfold np.rint.
  pose proof (Qfloor_le y) as Hlo.
  pose proof (Qlt_floor y) as Hhi.
  rewrite inject_Z_plus in Hhi. change (inject_Z 1) with 1 in Hhi.
  assert (Hup : inject_Z (Qfloor y + 1) == inject_Z (Qfloor y) + 1)
    by (now rewrite inject_Z_plus).
  destruct (Qcompare (y - inject_Z (Qfloor y)) (1 # 2)) eqn:Hc.
  - apply Qeq_alt in Hc.
    destruct (Z.even (Qfloor y)); [| rewrite Hup]; lra.
  - apply Qlt_alt in Hc. lra.
  - apply Qgt_alt in Hc. rewrite Hup. lra.
Qed.

Lemma rint_between (a b : Z) (y : Q) :
  inject_Z a <= y -> y <= inject_Z b -> (a <= np.rint y <= b)%Z.
Proof.
  intros Ha Hb.
  assert (Hfa : (a <= Qfloor y)%Z).
  { rewrite <- (Qfloor_Z a). now apply Qfloor_resp_le. }
  assert (Hfb : (Qfloor y <= b)%Z).
  { rewrite <- (Qfloor_Z b). now apply Qfloor_resp_le. }
  assert (Hstep : inject_Z (Qfloor y) < y -> (Qfloor y + 1 <= b)%Z).
  { intros Hlt.
    assert (Hz : inject_Z (Qfloor y) < inject_Z b) by lra.
    rewrite <- Zlt_Qlt in Hz. lia. }
  unfold np.rint.
  destruct (Qcompare (y - inject_Z (Qfloor y)) (1 # 2)) eqn:Hc.
  - apply Qeq_alt in Hc.
    destruct (Z.even (Qfloor y)); [lia |].
    split; [lia | apply Hstep; lra].
  - lia.
  - apply Qgt_alt in Hc. split; [lia | apply Hstep; lra].
Qed.

Lemma rint_proper (x y : Q) : x == y -> np.rint x = np.rint y.
Proof.
  intros E. unfold np.rint.
  rewrite (Qfloor_comp x y E).
  assert (Hc : Qcompare (x - inject_Z (Qfloor y)) (1 # 2)
               = Qcompare (y - inject_Z (Qfloor y)) (1 # 2)).
  { apply Qcompare_comp; [now rewrite E | reflexivity]. }
  now rewrite Hc.
Qed.

(** [np.round(x, 2)] is the hundredth nearest to [x]. *)
Lemma round2_value (x : Q) :
  np.round x 2 == inject_Z (np.rint (x * 100)) / 100.
Proof.
  unfold np.round. rewrite Qred_correct.
  change (inject_Z (10 ^ Z.of_nat 2)) with 100. reflexivity.
Qed.

Lemma round2_near (x : Q) :
  np.round x 2 - half_cent <= x /\ x <= np.round x 2 + half_cent.
Proof.
  rewrite round2_value. unfold half_cent.
  destruct (rint_near (x * 100)) as [H1 H2].
  set (z := inject_Z (np.rint (x * 100))) in *.
  assert (E : z / 100 == z * (1 # 100)) by (field; discriminate).
  rewrite E. lra.
Qed.

Lemma round2_in_box (x : Q) :
  0 <= x /\ x <= 100 -> 0 <= np.round x 2 /\ np.round x 2 <= 100.
Proof.
  intros [H0 H1]. rewrite round2_value.
  destruct (rint_between 0 10000 (x * 100)) as [Ha Hb].
  - change (inject_Z 0) with 0. lra.
  - change (inject_Z 10000) with 10000. lra.
  - set (r := np.rint (x * 100)) in *.
    assert (E : inject_Z r / 100 == inject_Z r * (1 # 100)) by (field; discriminate).
    rewrite E.
    rewrite Zle_Qle in Ha, Hb.
    change (inject_Z 0) with 0 in Ha. change (inject_Z 10000) with 10000 in Hb.
    lra.
Qed.

(** Equal rationals round to the same value, syntactically. *)
Lemma round2_proper (x y : Q) : x == y -> np.round x 2 = np.round y 2.
Proof.
  intros E. unfold np.round.
  rewrite (rint_proper (x * inject_Z (10 ^ Z.of_nat 2)) (y * inject_Z (10 ^ Z.of_nat 2)));
    [reflexivity | now rewrite E].
Qed.

(** The rounded value is a whole number of hundredths. *)
Lemma round2_hundredths (x : Q) : exists z : Z, np.round x 2 == z # 100.
Proof.
  exists (np.rint (x * 100)). rewrite round2_value.
  unfold Qeq, Qdiv, Qmult, Qinv, inject_Z. simpl. lia.
Qed.

End Rounding.

(** ** The two loops that build the result list *)

Section ResultLoops.

Lemma skipn_cons_nth_error (v : list Q) (i : nat) (x : Q) :
  nth_error v i = Some x -> skipn i v = x :: skipn (S i) v.
Proof.
  revert i. induction v as [| y v IH]; intros [| i] H; simpl in *;
    try discriminate.
  - now inversion H.
  - now apply IH.
Qed.

(** With a value for every course, the first loop raises nothing and pairs
    the courses with the rounded values in order. *)
Lemma scored_results_spec (courses : list Course) :
  forall (i : nat) (v : list Q),
    (i + List.length courses <= List.length v)%nat ->
    scored_results i courses v = Returned (scored_entries i courses (skipn i v)).
Proof.
  induction courses as [| c rest IH]; intros i v Hlen; simpl in *.
  - reflexivity.
  - unfold getitem.
    destruct (nth_error v i) as [x |] eqn:Hx.
    + simpl. rewrite IH by lia. simpl.
      rewrite (skipn_cons_nth_error v i x Hx). reflexivity.
    + apply nth_error_None in Hx. lia.
Qed.

Lemma scored_entries_length (courses : list Course) :
  forall (i : nat) (xs : list Q),
    List.length xs = List.length courses ->
    List.length (scored_entries i courses xs) = List.length courses.
Proof.
  induction courses as [| c rest IH]; intros i [| x xs] H; simpl in *;
    try discriminate; auto.
Qed.

Lemma scored_entries_credit (courses : list Course) :
  forall (i : nat) (xs : list Q),
    List.length xs = List.length courses ->
    map credit (scored_entries i courses xs) = map course_credit courses.
Proof.
  induction courses as [| c rest IH]; intros i [| x xs] H; simpl in *;
    try discriminate; auto.
  f_equal. apply IH. lia.
Qed.

Lemma scored_entries_scores (courses : list Course) :
  forall (i : nat) (xs : list Q),
    List.length xs = List.length courses ->
    float_scores (scored_entries i courses xs)
    = Some (map (fun x => np.round x 2) xs).
Proof.
  induction courses as [| c rest IH]; intros i [| x xs] H; simpl in *;
    try discriminate; auto.
  rewrite IH by lia. reflexivity.
Qed.

Lemma unavailable_results_length (courses : list Course) :
  forall i : nat, List.length (unavailable_results i courses) = List.length courses.
Proof.
  induction courses as [| c rest IH]; intros i; simpl; auto.
Qed.

Lemma unavailable_results_scores (courses : list Course) :
  forall i : nat,
    Forall (fun e => score e = PyStr "N/A") (unavailable_results i courses).
Proof.
  induction courses as [| c rest IH]; intros i; simpl; constructor; auto.
Qed.

End ResultLoops.

(** ** The function, branch by branch *)

Section Branches.

Variable solve : cp.Problem -> outcome cp.Solution.
Variables (courses : list Course) (ctc cwa target : Q).

(** The solver is reached on [problem_of], whatever the course list. *)
Lemma predict_calls_solver :
  predict_scores_cvxpy solve courses ctc cwa target
  = (sol <- solve (problem_of courses ctc cwa target) ;;
     match status_in (cp.status sol) [cp.OPTIMAL; cp.OPTIMAL_INACCURATE],
           cp.value sol with
     | true, Some value =>
         results <- scored_results 0 courses value ;;
         Returned (results, cp.status sol)
     | _, _ => Returned (unavailable_results 0 courses, cp.status sol)
     end).
Proof.
  unfold predict_scores_cvxpy, problem_of.
  rewrite length_map. reflexivity.
Qed.

Lemma predict_reaches_solver :
  courses <> [] ->
  predict_scores_cvxpy solve courses ctc cwa target
  = (sol <- solve (problem_of courses ctc cwa target) ;;
     match status_in (cp.status sol) [cp.OPTIMAL; cp.OPTIMAL_INACCURATE],
           cp.value sol with
     | true, Some value =>
         results <- scored_results 0 courses value ;;
         Returned (results, cp.status sol)
     | _, _ => Returned (unavailable_results 0 courses, cp.status sol)
     end).
Proof.
  intros _. apply predict_calls_solver.
Qed.

Lemma predict_scored_any (st : string) (v : list Q) :
  solve (problem_of courses ctc cwa target)
  = Returned {| cp.status := st; cp.value := Some v |} ->
  status_in st [cp.OPTIMAL; cp.OPTIMAL_INACCURATE] = true ->
  List.length v = List.length courses ->
  predict_scores_cvxpy solve courses ctc cwa target
  = Returned (scored_entries 0 courses v, st).
Proof.
  intros Hs Hst Hlen.
  rewrite predict_calls_solver.
  rewrite Hs. cbn [bind cp.status cp.value]. rewrite Hst.
  rewrite scored_results_spec by (simpl; lia).
  reflexivity.
Qed.

Lemma predict_scored (st : string) (v : list Q) :
  courses <> [] ->
  solve (problem_of courses ctc cwa target)
  = Returned {| cp.status := st; cp.value := Some v |} ->
  status_in st [cp.OPTIMAL; cp.OPTIMAL_INACCURATE] = true ->
  List.length v = List.length courses ->
  predict_scores_cvxpy solve courses ctc cwa target
  = Returned (scored_entries 0 courses v, st).
Proof.
  intros _. apply predict_scored_any.
Qed.

Lemma predict_unavailable_any (st : string) (v : option (list Q)) :
  solve (problem_of courses ctc cwa target)
  = Returned {| cp.status := st; cp.value := v |} ->
  status_in st [cp.OPTIMAL; cp.OPTIMAL_INACCURATE] = false \/ v = None ->
  predict_scores_cvxpy solve courses ctc cwa target
  = Returned (unavailable_results 0 courses, st).
Proof.
  intros Hs Hor.
  rewrite predict_calls_solver.
  rewrite Hs. cbn [bind cp.status cp.value].
  destruct Hor as [Hst | Hv].
  - rewrite Hst. reflexivity.
  - subst v. destruct (status_in st _); reflexivity.
Qed.

Lemma predict_unavailable (st : string) (v : option (list Q)) :
  courses <> [] ->
  solve (problem_of courses ctc cwa target)
  = Returned {| cp.status := st; cp.value := v |} ->
  status_in st [cp.OPTIMAL; cp.OPTIMAL_INACCURATE] = false \/ v = None ->
  predict_scores_cvxpy solve courses ctc cwa target
  = Returned (unavailable_results 0 courses, st).
Proof.
  intros _. apply predict_unavailable_any.
Qed.

Lemma problem_of_shape : well_formed (problem_of courses ctc cwa target).
Proof.
  unfold well_formed, problem_of. simpl. now rewrite length_map.
Qed.

Lemma problem_of_well_formed :
  courses <> [] -> well_formed (problem_of courses ctc cwa target).
Proof.
  intros _. apply problem_of_shape.
Qed.

(** Under the contract the function returns, in one of two ways. *)
Lemma predict_exact_any :
  exact_solver solve ->
  (exists v, optimal (problem_of courses ctc cwa target) v
             /\ predict_scores_cvxpy solve courses ctc cwa target
                = Returned (scored_entries 0 courses v, cp.OPTIMAL))
  \/ ((forall s, ~ feasible (problem_of courses ctc cwa target) s)
      /\ predict_scores_cvxpy solve courses ctc cwa target
         = Returned (unavailable_results 0 courses, cp.INFEASIBLE)).
Proof.
  intros Hex.
  destruct (Hex _ problem_of_shape) as [[v [Hs Hopt]] | [Hs Hno]].
  - left. exists v. split; [assumption |].
    apply predict_scored_any; auto.
    destruct Hopt as [[Hlen _] _]. exact Hlen.
  - right. split; [assumption |].
    eapply predict_unavailable_any; eauto.
Qed.

Lemma predict_exact :
  exact_solver solve ->
  courses <> [] ->
  (exists v, optimal (problem_of courses ctc cwa target) v
             /\ predict_scores_cvxpy solve courses ctc cwa target
                = Returned (scored_entries 0 courses v, cp.OPTIMAL))
  \/ ((forall s, ~ feasible (problem_of courses ctc cwa target) s)
      /\ predict_scores_cvxpy solve courses ctc cwa target
         = Returned (unavailable_results 0 courses, cp.INFEASIBLE)).
Proof.
  intros Hex _. now apply predict_exact_any.
Qed.

End Branches.

Lemma exact_solver_respects_bounds (solve : cp.Problem -> outcome cp.Solution) :
  exact_solver solve -> respects_bounds solve.
Proof.
  intros Hex p sol v Hwf Hs Hv.
  destruct (Hex p Hwf) as [[v' [Hs' [[_ [_ Hbox]] _]]] | [Hs' _]];
    rewrite Hs' in Hs; inversion Hs; subst sol; simpl in Hv.
  - inversion Hv; subst. exact Hbox.
  - discriminate.
Qed.

(** ** The linear program on courses of positive credit *)

Section LinearProgram.

Lemma sum_credits_max_points (courses : list Course) :
  max_points courses == 100 * np.sum (map course_credit courses).
Proof.
  unfold max_points. induction courses as [| c rest IH]; simpl.
  - lra.
  - rewrite IH. lra.
Qed.

Lemma sum_credits_nonneg (courses : list Course) :
  positive_credits courses -> 0 <= np.sum (map course_credit courses).
Proof.
  induction 1 as [| c rest Hc _ IH]; simpl; lra.
Qed.

Lemma sum_credits_pos (courses : list Course) :
  courses <> [] -> positive_credits courses ->
  0 < np.sum (map course_credit courses).
Proof.
  intros Hne Hpos. destruct Hpos as [| c rest Hc Hrest]; [congruence |].
  simpl. pose proof (sum_credits_nonneg rest Hrest). lra.
Qed.

(** No point of the box brings more than every score at 100 ... *)
Lemma dot_le_max_points (courses : list Course) :
  positive_credits courses ->
  forall s, in_box s ->
    np.dot (map course_credit courses) s <= max_points courses.
Proof.
  unfold max_points.
  induction 1 as [| c rest Hc Hrest IH]; intros s Hbox; simpl.
  - lra.
  - destruct Hbox as [| x s' [Hx0 Hx1] Hbox']; simpl.
    + pose proof (sum_credits_nonneg rest Hrest) as Hs.
      pose proof (sum_credits_max_points rest) as E. unfold max_points in E.
      rewrite E. nra.
    + specialize (IH s' Hbox'). nra.
Qed.

(** ... nor less than nothing. *)
Lemma dot_nonneg (courses : list Course) :
  positive_credits courses ->
  forall s, in_box s -> 0 <= np.dot (map course_credit courses) s.
Proof.
  induction 1 as [| c rest Hc _ IH]; intros s Hbox; simpl.
  - lra.
  - destruct Hbox as [| x s' [Hx0 Hx1] Hbox']; simpl.
    + lra.
    + specialize (IH s' Hbox'). nra.
Qed.

(** A point of the box that brings nothing is zero everywhere. *)
Lemma dot_zero_all_zero (courses : list Course) :
  positive_credits courses ->
  forall s, in_box s -> List.length s = List.length courses ->
    np.dot (map course_credit courses) s <= 0 ->
    Forall (fun x => x == 0) s.
Proof.
  induction 1 as [| c rest Hc Hrest IH]; intros s Hbox Hlen Hdot.
  - destruct s; [constructor | discriminate].
  - destruct Hbox as [| x s' [Hx0 Hx1] Hbox']; [discriminate |].
    simpl in *.
    pose proof (dot_nonneg rest Hrest s' Hbox') as Hr.
    assert (Hcx : 0 <= course_credit c * x) by nra.
    constructor.
    + assert (Hz : course_credit c * x <= 0) by lra. nra.
    + apply IH; auto; lra.
Qed.

(** The same score [x] on every course brings [x] times the credits. *)
Lemma dot_repeat (cs : list Q) (x : Q) :
  np.dot cs (repeat x (List.length cs)) == x * np.sum cs.
Proof.
  induction cs as [| c cs IH]; simpl.
  - lra.
  - rewrite IH. lra.
Qed.

Lemma in_box_repeat (x : Q) (n : nat) :
  0 <= x /\ x <= 100 -> in_box (repeat x n).
Proof.
  intros Hx. unfold in_box. induction n; simpl; constructor; auto.
Qed.

(** Between nothing and the maximum, the least feasible total is the
    required one: the constraint is met with equality at an optimum. *)
Lemma optimal_total (courses : list Course) (ctc cwa target : Q) (v : list Q) :
  courses <> [] -> positive_credits courses ->
  0 < required_points courses ctc cwa target ->
  required_points courses ctc cwa target <= max_points courses ->
  optimal (problem_of courses ctc cwa target) v ->
  np.dot (map course_credit courses) v == required_points courses ctc cwa target.
Proof.
  intros Hne Hpos H0 Hmax [[Hlen [Hreq Hbox]] Hmin].
  simpl in Hlen, Hreq, Hmin.
  set (R := required_points courses ctc cwa target) in *.
  set (cs := map course_credit courses) in *.
  pose proof (sum_credits_pos courses Hne Hpos) as HS. fold cs in HS.
  pose proof (sum_credits_max_points courses) as EM. fold cs in EM.
  assert (Hx : R / np.sum cs * np.sum cs == R) by (field; lra).
  assert (Hx0 : 0 <= R / np.sum cs).
  { apply Qle_shift_div_l; lra. }
  assert (Hx1 : R / np.sum cs <= 100).
  { apply Qle_shift_div_r; lra. }
  assert (Hfeas : feasible (problem_of courses ctc cwa target)
                    (repeat (R / np.sum cs) (List.length cs))).
  { unfold feasible; simpl. fold cs R. repeat split.
    - rewrite repeat_length. unfold cs. now rewrite length_map.
    - rewrite dot_repeat. lra.
    - apply in_box_repeat. split; assumption. }
  specialize (Hmin _ Hfeas). rewrite dot_repeat in Hmin.
  apply Qle_antisym; lra.
Qed.

(** The same for every course list, the empty one included, and a
    threshold of zero: an optimum totals exactly the threshold. *)
Lemma optimal_total_any (courses : list Course) (ctc cwa target : Q)
    (v : list Q) :
  positive_credits courses ->
  0 <= required_points courses ctc cwa target ->
  optimal (problem_of courses ctc cwa target) v ->
  np.dot (map course_credit courses) v == required_points courses ctc cwa target.
Proof.
  intros Hpos H0 Hopt.
  destruct (Qlt_le_dec 0 (required_points courses ctc cwa target)) as [Hlt | Hle].
  - destruct courses as [| c cs].
    + destruct Hopt as [[_ [Hreq _]] _].
      change (required_points [] ctc cwa target <= 0) in Hreq.
      change (0 == required_points [] ctc cwa target). lra.
    + apply optimal_total; try assumption; [discriminate |].
      destruct Hopt as [[_ [Hreq Hbox]] _].
      change (required_points (c :: cs) ctc cwa target
              <= np.dot (map course_credit (c :: cs)) v) in Hreq.
      pose proof (dot_le_max_points (c :: cs) Hpos v Hbox). lra.
  - destruct Hopt as [[_ [Hreq _]] Hmin].
    change (required_points courses ctc cwa target
            <= np.dot (map course_credit courses) v) in Hreq.
    assert (Hzero : feasible (problem_of courses ctc cwa target)
                      (repeat 0 (List.length (map course_credit courses)))).
    { unfold feasible. simpl. repeat split.
      - now rewrite repeat_length, length_map.
      - rewrite dot_repeat. lra.
      - apply in_box_repeat. lra. }
    specialize (Hmin _ Hzero). cbn [problem_of cp.credits] in Hmin.
    rewrite dot_repeat in Hmin. lra.
Qed.

(** Rounding moves the weighted total by at most half a hundredth per
    credit. *)
Lemma dot_round_near (cs xs : list Q) :
  Forall (fun c => 0 <= c) cs ->
  List.length xs = List.length cs ->
  np.dot cs xs - half_cent * np.sum cs
    <= np.dot cs (map (fun x => np.round x 2) xs)
  /\ np.dot cs (map (fun x => np.round x 2) xs)
    <= np.dot cs xs + half_cent * np.sum cs.
Proof.
  intros Hcs. revert xs.
  induction Hcs as [| c cs Hc _ IH]; intros [| x xs] Hlen; simpl in *;
    try discriminate.
  - lra.
  - destruct (IH xs) as [IH1 IH2]; [lia |].
    destruct (round2_near x) as [N1 N2].
    unfold half_cent in *. split; nra.
Qed.

Lemma in_box_round (xs : list Q) :
  in_box xs -> in_box (map (fun x => np.round x 2) xs).
Proof.
  unfold in_box. induction 1 as [| x xs Hx _ IH]; simpl; constructor; auto.
  now apply round2_in_box.
Qed.

Lemma positive_credits_nonneg (courses : list Course) :
  positive_credits courses ->
  Forall (fun c => 0 <= c) (map course_credit courses).
Proof.
  induction 1 as [| c rest Hc _ IH]; simpl; constructor; auto. lra.
Qed.

End LinearProgram.

(** ** The reference solver meets the contract *)

Section ReferenceSolver.

Lemma Qle_bool_cases (x y : Q) :
  (Qle_bool x y = true /\ x <= y) \/ (Qle_bool x y = false /\ y < x).
Proof.
  destruct (Qle_bool x y) eqn:E.
  - left. split; [reflexivity | now apply Qle_bool_iff].
  - right. split; [reflexivity |].
    apply Qnot_le_lt. intros H. apply Qle_bool_iff in H. congruence.
Qed.

Ltac by_cases x y :=
  let E := fresh "E" in
  let H := fresh "H" in
  destruct (Qle_bool_cases x y) as [[E H] | [E H]]; rewrite ?E in *.

Lemma parts_order (c : Q) : neg_part c <= 0 /\ 0 <= pos_part c.
Proof. unfold neg_part, pos_part. by_cases c 0; lra. Qed.

Lemma parts_abs (c : Q) : Qabs c == pos_part c - neg_part c.
Proof.
  unfold neg_part, pos_part. by_cases c 0.
  - rewrite Qabs_neg by assumption. lra.
  - rewrite Qabs_pos by lra. lra.
Qed.

Lemma lowest_le_highest (cs : list Q) : lowest cs <= 0 /\ 0 <= highest cs.
Proof.
  unfold lowest, highest. induction cs as [| c cs IH]; simpl.
  - lra.
  - pose proof (parts_order c). lra.
Qed.

(** Over the box, [credits @ s] stays between [lowest] and [highest]. *)
Lemma box_dot_bounds (cs : list Q) :
  forall s, in_box s ->
    lowest cs <= np.dot cs s /\ np.dot cs s <= highest cs.
Proof.
  induction cs as [| c cs IH]; intros s Hbox.
  - simpl. unfold lowest, highest. simpl. lra.
  - pose proof (lowest_le_highest (c :: cs)) as Hlh.
    destruct Hbox as [| x s' [Hx0 Hx1] Hbox']; [simpl; lra |].
    destruct (IH s' Hbox') as [I1 I2].
    unfold lowest, highest in *. simpl in *.
    unfold neg_part, pos_part in *. by_cases c 0; split; nra.
Qed.

Lemma take_bounds (need cap : Q) :
  0 <= cap -> 0 <= take need cap /\ take need cap <= cap.
Proof.
  intros Hc. unfold take. by_cases need 0; [lra |].
  by_cases cap need; lra.
Qed.

Lemma take_split (need cap more : Q) :
  0 <= cap -> 0 <= more ->
  take need cap + take (need - take need cap) more == take need (cap + more).
Proof.
  intros Hc Hm. unfold take.
  by_cases need 0.
  - by_cases (need - 0) 0; lra.
  - by_cases cap need.
    + by_cases (need - cap) 0.
      * by_cases (cap + more) need; lra.
      * by_cases more (need - cap); by_cases (cap + more) need; lra.
    + by_cases (need - need) 0; [| lra].
      by_cases (cap + more) need; lra.
Qed.

Lemma fill_length (cs : list Q) :
  forall need, List.length (fill cs need) = List.length cs.
Proof.
  induction cs as [| c cs IH]; intros need; simpl; auto.
Qed.

(** The coordinate the reference solver gives to a credit [c] that takes
    the amount [a] of the need. *)
Lemma coordinate_value (c a : Q) :
  0 <= a -> a <= 100 * Qabs c ->
  let x := if Qle_bool c 0
           then (if Qle_bool 0 c then 0 else 100 + a / c)
           else a / c in
  (0 <= x /\ x <= 100) /\ c * x == 100 * neg_part c + a.
Proof.
  intros Ha0 Ha1. rewrite parts_abs in Ha1.
  unfold neg_part, pos_part in *.
  by_cases c 0.
  - by_cases 0 c.
    + simpl. split; [lra |]. nra.
    + simpl.
      assert (Hd : a / c * c == a) by (field; lra).
      set (y := a / c) in *.
      assert (Hd0 : y <= 0) by nra.
      assert (Hd1 : -100 <= y) by nra.
      split; [lra |]. nra.
  - simpl.
    assert (Hd : a / c * c == a) by (field; lra).
    set (y := a / c) in *.
    assert (Hd0 : 0 <= y) by nra.
    assert (Hd1 : y <= 100) by nra.
    split; [lra |]. nra.
Qed.

Lemma abs_capacity (c : Q) : 0 <= 100 * Qabs c.
Proof. pose proof (Qabs_nonneg c). lra. Qed.

Lemma fill_in_box (cs : list Q) : forall need, in_box (fill cs need).
Proof.
  unfold in_box. induction cs as [| c cs IH]; intros need; simpl.
  - constructor.
  - constructor; [| apply IH].
    destruct (take_bounds need (100 * Qabs c) (abs_capacity c)) as [T0 T1].
    exact (proj1 (coordinate_value c _ T0 T1)).
Qed.

(** What the filled point brings: the least total plus what was needed,
    as far as the box allows. *)
Lemma fill_dot (cs : list Q) :
  forall need,
    np.dot cs (fill cs need) == lowest cs + take need (highest cs - lowest cs).
Proof.
  induction cs as [| c cs IH]; intros need.
  - simpl. unfold lowest, highest, take. simpl.
    by_cases need 0; [lra |]. by_cases (0 - 0) need; lra.
  - cbn [fill np.dot].
    destruct (take_bounds need (100 * Qabs c) (abs_capacity c)) as [T0 T1].
    destruct (coordinate_value c _ T0 T1) as [_ Hc]. cbv zeta in Hc.
    rewrite Hc, IH.
    pose proof (lowest_le_highest cs) as Hlh.
    pose proof (take_split need (100 * Qabs c) (highest cs - lowest cs)
                  (abs_capacity c)) as Hsplit.
    assert (Hcap : 100 * Qabs c + (highest cs - lowest cs)
                   == highest (c :: cs) - lowest (c :: cs)).
    { rewrite parts_abs. unfold highest, lowest. simpl. lra. }
    assert (Htake : take need (100 * Qabs c + (highest cs - lowest cs))
                    == take need (highest (c :: cs) - lowest (c :: cs))).
    { unfold take.
      by_cases need 0; [reflexivity |].
      by_cases (100 * Qabs c + (highest cs - lowest cs)) need;
        by_cases (highest (c :: cs) - lowest (c :: cs)) need; lra. }
    rewrite <- Htake, <- Hsplit by lra.
    unfold lowest. simpl. lra.
Qed.

Lemma reference_solver_exact : exact_solver reference_solver.
Proof.
  intros p Hshape. unfold reference_solver.
  set (cs := cp.credits p) in *. set (R := cp.required_points p) in *.
  pose proof (lowest_le_highest cs) as Hlh.
  destruct (Qle_bool_cases R (highest cs)) as [[E H] | [E H]]; rewrite E.
  - left. exists (fill cs (R - lowest cs)). split; [reflexivity |].
    assert (Hdot : np.dot cs (fill cs (R - lowest cs))
                   == lowest cs + take (R - lowest cs) (highest cs - lowest cs))
      by apply fill_dot.
    unfold take in Hdot.
    split.
    + unfold feasible. fold cs R. repeat split.
      * rewrite fill_length. now rewrite Hshape.
      * rewrite Hdot. by_cases (R - lowest cs) 0; [lra |].
        by_cases (highest cs - lowest cs) (R - lowest cs); lra.
      * apply fill_in_box.
    + intros s [_ [Hreq Hbox]]. fold cs R in Hreq. fold cs.
      destruct (box_dot_bounds cs s Hbox) as [B1 _].
      rewrite Hdot. by_cases (R - lowest cs) 0; [lra |].
      by_cases (highest cs - lowest cs) (R - lowest cs); lra.
  - right. split; [reflexivity |].
    intros s [_ [Hreq Hbox]]. fold cs R in Hreq.
    destruct (box_dot_bounds cs s Hbox) as [_ B2]. lra.
Qed.

End ReferenceSolver.

(** ** Result lists, entry by entry *)

Section Entries.

Variable ok : pyval -> Prop.

Lemma scored_entries_carries (courses : list Course) :
  forall (i : nat) (xs : list Q),
    List.length xs = List.length courses ->
    Forall (fun x => ok (PyFloat (np.round x 2))) xs ->
    Forall2 (carries ok) courses (scored_entries i courses xs).
Proof.
  induction courses as [| c rest IH]; intros i xs Hlen Hok.
  - destruct xs; [constructor | discriminate].
  - destruct Hok as [| x xs' Hx Hxs]; [discriminate |].
    simpl. constructor.
    + unfold carries, entry_of, get_name. simpl. repeat split; auto.
      intros s Hs. now rewrite Hs.
    + apply IH; auto.
Qed.

Lemma unavailable_results_carries (courses : list Course) :
  ok (PyStr "N/A") ->
  forall i : nat, Forall2 (carries ok) courses (unavailable_results i courses).
Proof.
  intros Hok. induction courses as [| c rest IH]; intros i; simpl.
  - constructor.
  - constructor; [| apply IH].
    unfold carries, get_name. simpl. repeat split; auto.
    intros s Hs. now rewrite Hs.
Qed.

(** What the first loop returns, when it returns, without any assumption
    on the number of values. *)
Lemma scored_results_carries (v : list Q) :
  (forall x, In x v -> ok (PyFloat (np.round x 2))) ->
  forall (courses : list Course) (i : nat) (r : list Entry),
    scored_results i courses v = Returned r ->
    Forall2 (carries ok) courses r.
Proof.
  intros Hok. induction courses as [| c rest IH]; intros i r Hret; simpl in Hret.
  - inversion Hret. constructor.
  - unfold getitem in Hret.
    destruct (nth_error v i) as [x |] eqn:Hx; [| discriminate].
    cbn [bind] in Hret.
    destruct (scored_results (S i) rest v) as [tl |] eqn:Htl; [| discriminate].
    cbn [bind] in Hret. inversion Hret; subst r.
    constructor; [| now apply (IH (S i))].
    unfold carries, get_name. simpl. repeat split.
    + intros s Hs. now rewrite Hs.
    + apply Hok. eapply nth_error_In; eauto.
Qed.

End Entries.

(** ** Consequences of the contract *)

Section UnderContract.

Variable solve : cp.Problem -> outcome cp.Solution.
Hypothesis solve_exact : exact_solver solve.

Variables (courses : list Course) (ctc cwa target : Q).

Lemma weighted_total_scored (v : list Q) :
  List.length v = List.length courses ->
  weighted_total (scored_entries 0 courses v)
  = Some (np.dot (map course_credit courses) (map (fun x => np.round x 2) v)).
Proof.
  intros Hlen. unfold weighted_total.
  rewrite scored_entries_scores, scored_entries_credit by assumption.
  reflexivity.
Qed.

(** Every score at 100 reaches the maximum. *)
Lemma all_100_feasible :
  required_points courses ctc cwa target <= max_points courses ->
  feasible (problem_of courses ctc cwa target)
    (repeat 100 (List.length (map course_credit courses))).
Proof.
  intros Hmax. unfold feasible. simpl. repeat split.
  - now rewrite repeat_length, length_map.
  - rewrite dot_repeat. rewrite sum_credits_max_points in Hmax. lra.
  - apply in_box_repeat. lra.
Qed.

(** At least one course, positive credits and a threshold within reach:
    the function returns OPTIMAL and the scores of an optimal point,
    rounded. *)
Lemma predict_within_reach :
  courses <> [] ->
  required_points courses ctc cwa target <= max_points courses ->
  exists v, optimal (problem_of courses ctc cwa target) v
            /\ predict_scores_cvxpy solve courses ctc cwa target
               = Returned (scored_entries 0 courses v, cp.OPTIMAL).
Proof.
  intros Hne Hmax.
  destruct (predict_exact solve courses ctc cwa target solve_exact Hne)
    as [Hopt | [Hno _]]; [exact Hopt |].
  exfalso. exact (Hno _ (all_100_feasible Hmax)).
Qed.

(** Beyond the maximum nothing is feasible and the function says so. *)
Lemma infeasible_beyond_max_points :
  courses <> [] -> positive_credits courses ->
  max_points courses < required_points courses ctc cwa target ->
  predict_scores_cvxpy solve courses ctc cwa target
  = Returned (unavailable_results 0 courses, cp.INFEASIBLE).
Proof.
  intros Hne Hpos Hgt.
  destruct (predict_exact solve courses ctc cwa target solve_exact Hne)
    as [[v [[[_ [Hreq Hbox]] _] _]] | [_ Hret]]; [| exact Hret].
  simpl in Hreq.
  pose proof (dot_le_max_points courses Hpos v Hbox). lra.
Qed.

(** With an exact solver, at least one course and positive credits, a
    threshold that is zero or negative gives the status OPTIMAL and the
    score 0 on every course. *)
Lemma zero_scores_when_target_met :
  courses <> [] -> positive_credits courses ->
  required_points courses ctc cwa target <= 0 ->
  exists results,
    predict_scores_cvxpy solve courses ctc cwa target
    = Returned (results, cp.OPTIMAL)
    /\ Forall2 (carries (fun sc => sc = PyFloat 0)) courses results.
Proof.
  intros Hne Hpos Hle.
  assert (Hmax : required_points courses ctc cwa target <= max_points courses).
  { rewrite sum_credits_max_points.
    pose proof (sum_credits_nonneg courses Hpos). lra. }
  destruct (predict_within_reach Hne Hmax) as [v [[Hfeas Hmin] Hret]].
  exists (scored_entries 0 courses v). split; [exact Hret |].
  destruct Hfeas as [Hlen [_ Hbox]]. simpl in Hlen.
  assert (Hzero : feasible (problem_of courses ctc cwa target)
                    (repeat 0 (List.length (map course_credit courses)))).
  { unfold feasible. simpl. repeat split.
    - now rewrite repeat_length, length_map.
    - rewrite dot_repeat. lra.
    - apply in_box_repeat. lra. }
  specialize (Hmin _ Hzero). simpl in Hmin. rewrite dot_repeat in Hmin.
  assert (Hall : Forall (fun x => x == 0) v).
  { apply (dot_zero_all_zero courses Hpos v Hbox Hlen). lra. }
  apply scored_entries_carries; [exact Hlen |].
  eapply Forall_impl; [| exact Hall].
  intros x Hx. cbn beta. now rewrite (round2_proper x 0 Hx).
Qed.

End UnderContract.

Lemma zero_scores_when_target_met_witness :
  exists results,
    predict_scores_cvxpy reference_solver scenarioA 30 90 60
    = Returned (results, cp.OPTIMAL)
    /\ Forall2 (carries (fun sc => sc = PyFloat 0)) scenarioA results.
Proof.
  apply (zero_scores_when_target_met reference_solver reference_solver_exact
           scenarioA 30 90 60).
  - discriminate.
  - repeat constructor.
  - vm_compute. discriminate.
Defined.

(** A single course of positive credit and a threshold within its reach:
    the one score is the threshold over the credit, rounded. *)
Lemma single_course_result (solve : cp.Problem -> outcome cp.Solution)
    (nm : string) (c ctc cwa target : Q) :
  exact_solver solve ->
  0 < c ->
  0 < required_points [course nm c] ctc cwa target ->
  required_points [course nm c] ctc cwa target <= c * 100 ->
  predict_scores_cvxpy solve [course nm c] ctc cwa target
  = Returned
      ([ {| name := nm; credit := c;
            score := PyFloat
              (np.round (required_points [course nm c] ctc cwa target / c) 2) |} ],
       cp.OPTIMAL).
Proof.
  intros Hex Hc H0 Hmax.
  assert (Hne : [course nm c] <> []) by discriminate.
  assert (Hpos : positive_credits [course nm c]).
  { constructor; [exact Hc | constructor]. }
  assert (Hmax' : required_points [course nm c] ctc cwa target
                  <= max_points [course nm c]).
  { unfold max_points. simpl. lra. }
  destruct (predict_within_reach solve Hex _ ctc cwa target Hne Hmax')
    as [v [Hopt Hret]].
  pose proof (optimal_total _ ctc cwa target v Hne Hpos H0 Hmax' Hopt) as Htot.
  destruct Hopt as [[Hlen _] _]. simpl in Hlen.
  destruct v as [| x [| y v']]; try discriminate.
  rewrite Hret. simpl in Htot |- *. unfold entry_of, get_name. simpl.
  assert (Hx : x == required_points [course nm c] ctc cwa target / c).
  { set (R := required_points [course nm c] ctc cwa target) in *.
    assert (Hd : R / c * c == R) by (field; lra).
    set (y := R / c) in *. nra. }
  now rewrite (round2_proper _ _ Hx).
Qed.

(** Rounding moves the weighted total down by at most half a hundredth per
    unit of credit, whatever the signs of the credits. *)
Lemma dot_round_below (cs xs : list Q) :
  np.dot cs xs - half_cent * np.sum (map Qabs cs)
  <= np.dot cs (map (fun x => np.round x 2) xs).
Proof.
  revert xs. induction cs as [| c cs IH]; intros xs.
  - simpl. lra.
  - assert (Hrest : 0 <= half_cent * np.sum (map Qabs cs)).
    { clear. unfold half_cent. induction cs as [| d cs IH]; simpl; [lra |].
      pose proof (Qabs_nonneg d). lra. }
    pose proof (Qabs_nonneg c) as Habs.
    destruct xs as [| x xs]; simpl.
    + unfold half_cent in *. lra.
    + specialize (IH xs). destruct (round2_near x) as [N1 N2].
      unfold half_cent in *.
      destruct (Qlt_le_dec c 0) as [Hneg | Hnn].
      * rewrite (Qabs_neg c) in * by lra. nra.
      * rewrite (Qabs_pos c) in * by lra. nra.
Qed.

(** * The claims *)

(** C1, as stated, fails: with one course of credit 3 and a threshold of
    100, every exact solver returns OPTIMAL with the score 33.33, whose
    weighted total 99.99 misses 100 by more than the relative tolerance. *)
Lemma C1_counterexample :
  exact_solver reference_solver
  /\ required_points [course "A" 3] 1 0 25 == 100
  /\ max_points [course "A" 3] == 300
  /\ (forall solve, exact_solver solve ->
        predict_scores_cvxpy solve [course "A" 3] 1 0 25
        = Returned ([ {| name := "A"; credit := 3; score := PyFloat 33.33 |} ],
                    cp.OPTIMAL))
  /\ weighted_total [ {| name := "A"; credit := 3; score := PyFloat 33.33 |} ]
     = Some (3 * 33.33 + 0)
  /\ ~ Qabs (3 * 33.33 + 0 - 100) <= rel_tol * 100.
Proof.
  split; [exact reference_solver_exact |].
  split; [vm_compute; reflexivity |].
  split; [vm_compute; reflexivity |].
  split.
  - intros solve Hex.
    rewrite (single_course_result solve "A" 3 1 0 25 Hex);
      [reflexivity | reflexivity | reflexivity | vm_compute; discriminate].
  - split; [reflexivity |]. vm_compute. intros H. apply H. reflexivity.
Qed.

(** C1, amended: for every course list with at least one course and
    positive credits where [0 < required_points <= sum(credit_i * 100)],
    with an exact solver the function returns OPTIMAL, and the weighted
    total of the returned scores - which are rounded to two decimal
    places - is within [0.005 * sum(credit_i)] of [required_points]; for
    Scenario C the single returned score is 35. *)
Theorem C1_optimal_total_up_to_rounding :
  forall (solve : cp.Problem -> outcome cp.Solution)
         (courses : list Course) (ctc cwa target : Q),
    exact_solver solve ->
    courses <> [] -> positive_credits courses ->
    0 < required_points courses ctc cwa target ->
    required_points courses ctc cwa target <= max_points courses ->
    (exists results total,
        predict_scores_cvxpy solve courses ctc cwa target
        = Returned (results, cp.OPTIMAL)
        /\ weighted_total results = Some total
        /\ Qabs (total - required_points courses ctc cwa target)
           <= half_cent * np.sum (map course_credit courses))
    /\ predict_scores_cvxpy solve scenarioC 30 90 85
       = Returned ([ {| name := "A"; credit := 3; score := PyFloat 35 |} ],
                   cp.OPTIMAL).
Proof.
  intros solve courses ctc cwa target Hex Hne Hpos H0 Hmax. split.
  - destruct (predict_within_reach solve Hex courses ctc cwa target Hne Hmax)
      as [v [Hopt Hret]].
    pose proof (optimal_total courses ctc cwa target v Hne Hpos H0 Hmax Hopt)
      as Htot.
    destruct Hopt as [[Hlen _] _]. simpl in Hlen.
    exists (scored_entries 0 courses v).
    exists (np.dot (map course_credit courses) (map (fun x => np.round x 2) v)).
    split; [exact Hret |]. split; [now apply weighted_total_scored |].
    destruct (dot_round_near (map course_credit courses) v
                (positive_credits_nonneg courses Hpos)) as [B1 B2].
    { now rewrite length_map. }
    apply Qabs_Qle_condition. split; lra.
  - unfold scenarioC.
    rewrite (single_course_result solve "A" 3 30 90 85 Hex);
      [reflexivity | reflexivity | reflexivity | vm_compute; discriminate].
Qed.

Lemma C1_witness :
  (exists results total,
      predict_scores_cvxpy reference_solver scenarioB 60 70 72
      = Returned (results, cp.OPTIMAL)
      /\ weighted_total results = Some total
      /\ Qabs (total - required_points scenarioB 60 70 72)
         <= half_cent * np.sum (map course_credit scenarioB))
  /\ predict_scores_cvxpy reference_solver scenarioC 30 90 85
     = Returned ([ {| name := "A"; credit := 3; score := PyFloat 35 |} ],
                 cp.OPTIMAL).
Proof.
  apply (C1_optimal_total_up_to_rounding reference_solver scenarioB 60 70 72).
  - exact reference_solver_exact.
  - discriminate.
  - repeat constructor.
  - reflexivity.
  - vm_compute. discriminate.
Defined.

(** A threshold within reach, whatever the course list: the function
    returns OPTIMAL and the scores of an optimal point, rounded. *)
Lemma predict_within_reach_any (solve : cp.Problem -> outcome cp.Solution)
    (courses : list Course) (ctc cwa target : Q) :
  exact_solver solve ->
  required_points courses ctc cwa target <= max_points courses ->
  exists v, optimal (problem_of courses ctc cwa target) v
            /\ predict_scores_cvxpy solve courses ctc cwa target
               = Returned (scored_entries 0 courses v, cp.OPTIMAL).
Proof.
  intros Hex Hmax.
  destruct (predict_exact_any solve courses ctc cwa target Hex)
    as [Hopt | [Hno _]]; [exact Hopt |].
  exfalso. exact (Hno _ (all_100_feasible courses ctc cwa target Hmax)).
Qed.

(** C2: with an exact solver, for every course list of positive credits,
    the empty list included, a threshold above [sum(credit_i * 100)] gives
    the status INFEASIBLE, with the marker on every course; in particular
    Scenario A, whose threshold 1272 exceeds the maximum 900. *)
Theorem C2_infeasible_beyond_maximum :
  forall (solve : cp.Problem -> outcome cp.Solution)
         (courses : list Course) (ctc cwa target : Q),
    exact_solver solve ->
    positive_credits courses ->
    max_points courses < required_points courses ctc cwa target ->
    (exists results,
        predict_scores_cvxpy solve courses ctc cwa target
        = Returned (results, cp.INFEASIBLE)
        /\ Forall2 (carries unavailable) courses results)
    /\ (required_points scenarioA 78 (157 # 2) 85 == 1272
        /\ max_points scenarioA == 900
        /\ exists results,
             predict_scores_cvxpy solve scenarioA 78 (157 # 2) 85
             = Returned (results, cp.INFEASIBLE)).
Proof.
  intros solve courses ctc cwa target Hex Hpos Hgt.
  assert (Hgen : forall cs a b t,
             positive_credits cs ->
             max_points cs < required_points cs a b t ->
             predict_scores_cvxpy solve cs a b t
             = Returned (unavailable_results 0 cs, cp.INFEASIBLE)).
  { intros cs a b t Hp Hg.
    destruct (predict_exact_any solve cs a b t Hex)
      as [[v [[[_ [Hreq Hbox]] _] _]] | [_ Hret]]; [| exact Hret].
    simpl in Hreq. pose proof (dot_le_max_points cs Hp v Hbox). lra. }
  split; [| split; [| split]].
  - exists (unavailable_results 0 courses). split; [now apply Hgen |].
    apply unavailable_results_carries. reflexivity.
  - vm_compute. reflexivity.
  - vm_compute. reflexivity.
  - exists (unavailable_results 0 scenarioA). apply Hgen.
    + repeat constructor.
    + vm_compute. reflexivity.
Qed.

Lemma C2_witness :
  (exists results,
      predict_scores_cvxpy reference_solver [] 1 0 50
      = Returned (results, cp.INFEASIBLE)
      /\ Forall2 (carries unavailable) [] results)
  /\ (required_points scenarioA 78 (157 # 2) 85 == 1272
      /\ max_points scenarioA == 900
      /\ exists results,
           predict_scores_cvxpy reference_solver scenarioA 78 (157 # 2) 85
           = Returned (results, cp.INFEASIBLE)).
Proof.
  apply (C2_infeasible_beyond_maximum reference_solver [] 1 0 50).
  - exact reference_solver_exact.
  - constructor.
  - reflexivity.
Defined.

(** With an exact solver, at least one course and positive credits, a
    threshold above [sum(credit_i * 100)] gives the status INFEASIBLE and
    the marker on every course; so does Scenario A, whose threshold 1272
    exceeds 900. *)
Theorem infeasible_out_of_reach :
  forall (solve : cp.Problem -> outcome cp.Solution)
         (courses : list Course) (ctc cwa target : Q),
    exact_solver solve ->
    courses <> [] -> positive_credits courses ->
    max_points courses < required_points courses ctc cwa target ->
    (exists results,
        predict_scores_cvxpy solve courses ctc cwa target
        = Returned (results, cp.INFEASIBLE)
        /\ Forall2 (carries unavailable) courses results)
    /\ max_points scenarioA == 900
    /\ predict_scores_cvxpy solve scenarioA 78 (157 # 2) 85
       = Returned ([ {| name := "A"; credit := 3; score := PyStr "N/A" |};
                     {| name := "B"; credit := 3; score := PyStr "N/A" |};
                     {| name := "C"; credit := 3; score := PyStr "N/A" |} ],
                   cp.INFEASIBLE).
Proof.
  intros solve courses ctc cwa target Hex Hne Hpos Hgt. split; [| split].
  - exists (unavailable_results 0 courses). split.
    + now apply infeasible_beyond_max_points.
    + apply unavailable_results_carries. reflexivity.
  - vm_compute. reflexivity.
  - rewrite (infeasible_beyond_max_points solve Hex scenarioA 78 (157 # 2) 85).
    + reflexivity.
    + discriminate.
    + repeat constructor.
    + vm_compute. reflexivity.
Qed.

Lemma infeasible_out_of_reach_witness :
  (exists results,
      predict_scores_cvxpy reference_solver [course "A" 3; course "B" 4] 20 50 90
      = Returned (results, cp.INFEASIBLE)
      /\ Forall2 (carries unavailable) [course "A" 3; course "B" 4] results)
  /\ max_points scenarioA == 900
  /\ predict_scores_cvxpy reference_solver scenarioA 78 (157 # 2) 85
     = Returned ([ {| name := "A"; credit := 3; score := PyStr "N/A" |};
                   {| name := "B"; credit := 3; score := PyStr "N/A" |};
                   {| name := "C"; credit := 3; score := PyStr "N/A" |} ],
                 cp.INFEASIBLE).
Proof.
  apply (infeasible_out_of_reach reference_solver
           [course "A" 3; course "B" 4] 20 50 90).
  - exact reference_solver_exact.
  - discriminate.
  - repeat constructor.
  - reflexivity.
Defined.

(** C3, as stated, fails: with one course of credit 7 and a threshold of
    60, every exact solver returns OPTIMAL with the score 8.57, whose
    weighted total 59.99 is below 60 by more than the relative tolerance. *)
Lemma C3_counterexample :
  exact_solver reference_solver
  /\ required_points [course "A" 7] 3 0 6 == 60
  /\ (forall solve, exact_solver solve ->
        predict_scores_cvxpy solve [course "A" 7] 3 0 6
        = Returned ([ {| name := "A"; credit := 7; score := PyFloat 8.57 |} ],
                    cp.OPTIMAL))
  /\ weighted_total [ {| name := "A"; credit := 7; score := PyFloat 8.57 |} ]
     = Some (7 * 8.57 + 0)
  /\ ~ 60 - rel_tol * 60 <= 7 * 8.57 + 0.
Proof.
  split; [exact reference_solver_exact |].
  split; [vm_compute; reflexivity |].
  split.
  - intros solve Hex.
    rewrite (single_course_result solve "A" 7 3 0 6 Hex);
      [reflexivity | reflexivity | reflexivity | vm_compute; discriminate].
  - split; [reflexivity |]. vm_compute. intros H. apply H. reflexivity.
Qed.

(** C3, amended: for every result whose status is OPTIMAL, with an exact
    solver, every score is a number of [0, 100] and the weighted total of
    the returned scores, which are rounded to two decimal places, is at
    least [required_points - 0.005 * sum(|credit_i|)]. *)
Theorem C3_optimal_result_bounds :
  forall (solve : cp.Problem -> outcome cp.Solution)
         (courses : list Course) (ctc cwa target : Q) (results : list Entry),
    exact_solver solve ->
    predict_scores_cvxpy solve courses ctc cwa target
    = Returned (results, cp.OPTIMAL) ->
    exists xs,
      float_scores results = Some xs
      /\ required_points courses ctc cwa target
         - half_cent * np.sum (map Qabs (map course_credit courses))
         <= np.dot (map credit results) xs
      /\ in_box xs.
Proof.
  intros solve courses ctc cwa target results Hex Hret.
  destruct (predict_exact_any solve courses ctc cwa target Hex)
    as [[v [[[Hlen [Hreq Hbox]] _] Hv]] | [_ Hno]].
  - rewrite Hv in Hret. inversion Hret; subst results.
    simpl in Hlen, Hreq.
    exists (map (fun x => np.round x 2) v).
    split; [now apply scored_entries_scores |].
    split; [| now apply in_box_round].
    rewrite scored_entries_credit by assumption.
    pose proof (dot_round_below (map course_credit courses) v). lra.
  - rewrite Hno in Hret. inversion Hret.
Qed.

Lemma C3_witness :
  exists xs,
    float_scores [ {| name := "A"; credit := 3; score := PyFloat 35 |} ] = Some xs
    /\ required_points scenarioC 30 90 85
       - half_cent * np.sum (map Qabs (map course_credit scenarioC))
       <= np.dot (map credit [ {| name := "A"; credit := 3; score := PyFloat 35 |} ]) xs
    /\ in_box xs.
Proof.
  apply (C3_optimal_result_bounds reference_solver scenarioC 30 90 85).
  - exact reference_solver_exact.
  - vm_compute. reflexivity.
Defined.

(** C4: with an exact solver, for every course list of positive credits,
    the empty list included, a threshold that is zero or negative - the
    target already met - gives the status OPTIMAL with every returned
    score equal to 0. *)
Theorem C4_target_met_gives_zero_scores :
  forall (solve : cp.Problem -> outcome cp.Solution)
         (courses : list Course) (ctc cwa target : Q),
    exact_solver solve ->
    positive_credits courses ->
    required_points courses ctc cwa target <= 0 ->
    exists results,
      predict_scores_cvxpy solve courses ctc cwa target
      = Returned (results, cp.OPTIMAL)
      /\ Forall2 (carries (fun sc => sc = PyFloat 0)) courses results.
Proof.
  intros solve courses ctc cwa target Hex Hpos Hle.
  assert (Hmax : required_points courses ctc cwa target <= max_points courses).
  { rewrite sum_credits_max_points.
    pose proof (sum_credits_nonneg courses Hpos). lra. }
  destruct (predict_within_reach_any solve courses ctc cwa target Hex Hmax)
    as [v [[Hfeas Hmin] Hret]].
  exists (scored_entries 0 courses v). split; [exact Hret |].
  destruct Hfeas as [Hlen [_ Hbox]]. simpl in Hlen.
  assert (Hzero : feasible (problem_of courses ctc cwa target)
                    (repeat 0 (List.length (map course_credit courses)))).
  { unfold feasible. simpl. repeat split.
    - now rewrite repeat_length, length_map.
    - rewrite dot_repeat. lra.
    - apply in_box_repeat. lra. }
  specialize (Hmin _ Hzero). simpl in Hmin. rewrite dot_repeat in Hmin.
  assert (Hall : Forall (fun x => x == 0) v).
  { apply (dot_zero_all_zero courses Hpos v Hbox Hlen). lra. }
  apply scored_entries_carries; [exact Hlen |].
  eapply Forall_impl; [| exact Hall].
  intros x Hx. cbn beta. now rewrite (round2_proper x 0 Hx).
Qed.

Lemma C4_witness :
  exists results,
    predict_scores_cvxpy reference_solver scenarioB 30 90 60
    = Returned (results, cp.OPTIMAL)
    /\ Forall2 (carries (fun sc => sc = PyFloat 0)) scenarioB results.
Proof.
  apply (C4_target_met_gives_zero_scores reference_solver scenarioB 30 90 60).
  - exact reference_solver_exact.
  - repeat constructor.
  - vm_compute. discriminate.
Defined.

(** C5: for every input the constraint threshold of the solve is
    [target_cwa * (current_total_credits + sum of the credits)
     - current_cwa * current_total_credits].
    The solver is called on the problem with this threshold - whatever
    the solver, an exception it raises on that problem is the function's,
    and the status returned is the one it reported for that problem - and
    with an exact solver and positive credits the threshold shows in the
    answer: the status is OPTIMAL exactly when the threshold is at most
    [100 * sum of the credits], and for a threshold between 0 and that
    maximum the scores returned are those of a point whose credit-weighted
    total is exactly the threshold, rounded to two decimal places.  For
    Scenario A the prior points are 6123, the target points 7395 and the
    threshold 1272. *)
Theorem C5_threshold_handed_to_solver :
  forall (solve : cp.Problem -> outcome cp.Solution)
         (courses : list Course) (ctc cwa target : Q),
    let credits := map course_credit courses in
    let threshold := target * (ctc + np.sum credits) - cwa * ctc in
    let prob := {| cp.scores := {| cp.shape := List.length credits |};
                   cp.credits := credits;
                   cp.required_points := threshold |} in
    (forall e, solve prob = Raised e ->
               predict_scores_cvxpy solve courses ctc cwa target = Raised e)
    /\ (forall results st,
          predict_scores_cvxpy solve courses ctc cwa target
          = Returned (results, st) ->
          exists sol, solve prob = Returned sol /\ cp.status sol = st)
    /\ (exact_solver solve -> positive_credits courses ->
        forall results st,
          predict_scores_cvxpy solve courses ctc cwa target
          = Returned (results, st) ->
          (st = cp.OPTIMAL <-> threshold <= 100 * np.sum credits))
    /\ (exact_solver solve -> positive_credits courses ->
        0 <= threshold -> threshold <= 100 * np.sum credits ->
        exists v,
          np.dot credits v == threshold
          /\ in_box v
          /\ predict_scores_cvxpy solve courses ctc cwa target
             = Returned (scored_entries 0 courses v, cp.OPTIMAL))
    /\ ((157 # 2) * 78 == 6123
        /\ 85 * (78 + np.sum (map course_credit scenarioA)) == 7395
        /\ required_points scenarioA 78 (157 # 2) 85 == 1272).
Proof.
  intros solve courses ctc cwa target credits threshold prob.
  assert (Hprob : prob = problem_of courses ctc cwa target).
  { unfold prob, problem_of, credits. now rewrite length_map. }
  assert (HM : max_points courses == 100 * np.sum credits)
    by apply sum_credits_max_points.
  assert (HR : required_points courses ctc cwa target = threshold)
    by reflexivity.
  split; [| split; [| split; [| split]]].
  - intros e He. rewrite predict_calls_solver, <- Hprob, He. reflexivity.
  - intros results st Hret. rewrite predict_calls_solver, <- Hprob in Hret.
    destruct (solve prob) as [sol | e]; [| discriminate].
    exists sol. split; [reflexivity |]. cbn [bind] in Hret.
    destruct (status_in (cp.status sol) [cp.OPTIMAL; cp.OPTIMAL_INACCURATE]);
      [| now inversion Hret].
    destruct (cp.value sol) as [v |]; [| now inversion Hret].
    destruct (scored_results 0 courses v); [| discriminate].
    cbn [bind] in Hret. now inversion Hret.
  - intros Hex Hpos results st Hret.
    destruct (predict_exact_any solve courses ctc cwa target Hex)
      as [[v [[[_ [Hreq Hbox]] _] Hv]] | [Hno Hv]];
      rewrite Hv in Hret; inversion Hret; subst.
    + split; [intros _ | reflexivity].
      simpl in Hreq. pose proof (dot_le_max_points courses Hpos v Hbox).
      rewrite HR in Hreq. lra.
    + split; [discriminate |]. intros Hle. exfalso.
      apply (Hno (repeat 100 (List.length (map course_credit courses)))).
      apply all_100_feasible. rewrite HR. lra.
  - intros Hex Hpos H0 Hle.
    assert (Hmax : required_points courses ctc cwa target <= max_points courses).
    { rewrite HR. lra. }
    destruct (predict_within_reach_any solve courses ctc cwa target Hex Hmax)
      as [v [Hopt Hret]].
    exists v. split; [| split; [| exact Hret]].
    + unfold credits. rewrite <- HR. apply optimal_total_any; [exact Hpos | | exact Hopt].
      rewrite HR. exact H0.
    + destruct Hopt as [[_ [_ Hbox]] _]. exact Hbox.
  - repeat split; vm_compute; reflexivity.
Qed.

(** C6: on the empty course list the function raises nothing - the sum of
    no credits is 0 and nothing is divided: with an exact solver it returns
    the status INFEASIBLE when [required_points > 0], and the status
    OPTIMAL with an empty result list when [required_points = 0]; the
    result list is empty in both cases. *)
Theorem C6_empty_course_list :
  forall (solve : cp.Problem -> outcome cp.Solution) (ctc cwa target : Q),
    exact_solver solve ->
    (0 < required_points [] ctc cwa target ->
     predict_scores_cvxpy solve [] ctc cwa target
     = Returned ([], cp.INFEASIBLE))
    /\ (required_points [] ctc cwa target == 0 ->
        predict_scores_cvxpy solve [] ctc cwa target
        = Returned ([], cp.OPTIMAL)).
Proof.
  intros solve ctc cwa target Hex.
  destruct (predict_exact_any solve [] ctc cwa target Hex)
    as [[v [[[Hlen [Hreq _]] _] Hv]] | [Hno Hv]].
  - simpl in Hlen, Hreq. destruct v; [| discriminate]. simpl in Hreq, Hv.
    split; [intros H; lra | intros _; exact Hv].
  - split; [intros _; exact Hv |].
    intros H0. exfalso. apply (Hno []).
    unfold feasible. simpl. repeat split; [lra | constructor].
Qed.

Lemma C6_witness :
  (0 < required_points [] 0 0 0 ->
   predict_scores_cvxpy reference_solver [] 0 0 0
   = Returned ([], cp.INFEASIBLE))
  /\ (required_points [] 0 0 0 == 0 ->
      predict_scores_cvxpy reference_solver [] 0 0 0
      = Returned ([], cp.OPTIMAL)).
Proof.
  exact (C6_empty_course_list reference_solver 0 0 0 reference_solver_exact).
Defined.

(** C7, as stated, fails: when the solver ends with OPTIMAL_INACCURATE,
    which is neither OPTIMAL nor INFEASIBLE, the function returns that very
    status together with a numeric score; and with "infeasible_inaccurate"
    it returns this other status, so the statuses returned are more than
    three. *)
Lemma C7_counterexample :
  predict_scores_cvxpy (const_solver cp.OPTIMAL_INACCURATE (Some [35]))
    scenarioC 30 90 85
  = Returned ([ {| name := "A"; credit := 3; score := PyFloat 35 |} ],
              cp.OPTIMAL_INACCURATE)
  /\ predict_scores_cvxpy (const_solver "infeasible_inaccurate" None)
       scenarioC 30 90 85
     = Returned ([ {| name := "A"; credit := 3; score := PyStr "N/A" |} ],
                 "infeasible_inaccurate"%string)
  /\ cp.OPTIMAL_INACCURATE <> cp.OPTIMAL
  /\ cp.OPTIMAL_INACCURATE <> cp.INFEASIBLE
  /\ "infeasible_inaccurate"%string <> cp.OPTIMAL
  /\ "infeasible_inaccurate"%string <> cp.INFEASIBLE
  /\ "infeasible_inaccurate"%string <> cp.OPTIMAL_INACCURATE.
Proof.
  repeat split; try reflexivity; discriminate.
Qed.

(** C7, amended: the status returned is the status the solver reported,
    unchanged, whatever it is; and whenever that status is neither OPTIMAL
    nor OPTIMAL_INACCURATE, every score of the result is the marker "N/A". *)
Theorem C7_status_passed_through :
  forall (solve : cp.Problem -> outcome cp.Solution)
         (courses : list Course) (ctc cwa target : Q)
         (results : list Entry) (st : string),
    predict_scores_cvxpy solve courses ctc cwa target = Returned (results, st) ->
    (exists sol,
        solve (problem_of courses ctc cwa target) = Returned sol
        /\ cp.status sol = st)
    /\ (st <> cp.OPTIMAL -> st <> cp.OPTIMAL_INACCURATE ->
        Forall2 (carries unavailable) courses results).
Proof.
  intros solve courses ctc cwa target results st Hret.
  rewrite predict_calls_solver in Hret.
  destruct (solve (problem_of courses ctc cwa target)) as [sol | e];
    [| discriminate].
  cbn [bind] in Hret.
  destruct (status_in (cp.status sol) [cp.OPTIMAL; cp.OPTIMAL_INACCURATE])
    eqn:Hin.
  - destruct (cp.value sol) as [v |].
    + destruct (scored_results 0 courses v) as [r |]; [| discriminate].
      cbn [bind] in Hret. inversion Hret; subst.
      split; [now exists sol |].
      intros H1 H2. exfalso.
      unfold status_in in Hin. simpl in Hin.
      rewrite !orb_true_iff in Hin.
      destruct Hin as [Hin | [Hin | Hin]]; [| | discriminate];
        apply String.eqb_eq in Hin; congruence.
    + inversion Hret; subst. split; [now exists sol |].
      intros _ _. apply unavailable_results_carries. reflexivity.
  - inversion Hret; subst. split; [now exists sol |].
    intros _ _. apply unavailable_results_carries. reflexivity.
Qed.

Lemma C7_witness :
  (exists sol,
      const_solver "infeasible_inaccurate" None (problem_of scenarioC 30 90 85)
      = Returned sol
      /\ cp.status sol = "infeasible_inaccurate"%string)
  /\ ("infeasible_inaccurate"%string <> cp.OPTIMAL ->
      "infeasible_inaccurate"%string <> cp.OPTIMAL_INACCURATE ->
      Forall2 (carries unavailable) scenarioC
        [ {| name := "A"; credit := 3; score := PyStr "N/A" |} ]).
Proof.
  apply (C7_status_passed_through (const_solver "infeasible_inaccurate" None)
           scenarioC 30 90 85).
  reflexivity.
Defined.

(** C8, as stated, fails: an input with a negative credit, a negative
    [current_total_credits] and both averages above 100 is solved and comes
    back OPTIMAL with a score, and one with a zero credit, a negative total
    and a negative target comes back INFEASIBLE; neither is rejected. *)
Lemma C8_counterexample :
  predict_scores_cvxpy reference_solver [course "A" (-3)] (-1) 150 150
  = Returned ([ {| name := "A"; credit := -3; score := PyFloat 100 |} ],
              cp.OPTIMAL)
  /\ predict_scores_cvxpy reference_solver [course "A" 0] (-1) 150 (-5)
     = Returned ([ {| name := "A"; credit := 0; score := PyStr "N/A" |} ],
                 cp.INFEASIBLE).
Proof.
  split; vm_compute; reflexivity.
Qed.

(** C8, amended: the function validates nothing.  For every course list
    with at least one course and any numbers - zero or negative credits, a
    negative [current_total_credits] and averages outside [0, 100]
    included - the problem built from them goes to the solver, and what
    the solver reports decides the answer: its status is returned, with
    one result entry per course. *)
Theorem C8_no_validation :
  forall (solve : cp.Problem -> outcome cp.Solution)
         (courses : list Course) (ctc cwa target : Q) (sol : cp.Solution),
    courses <> [] ->
    solve (problem_of courses ctc cwa target) = Returned sol ->
    (forall v, cp.value sol = Some v -> List.length v = List.length courses) ->
    exists results,
      predict_scores_cvxpy solve courses ctc cwa target
      = Returned (results, cp.status sol)
      /\ List.length results = List.length courses.
Proof.
  intros solve courses ctc cwa target [st v] Hne Hsol Hshape.
  cbn [cp.status cp.value] in *.
  destruct (status_in st [cp.OPTIMAL; cp.OPTIMAL_INACCURATE]) eqn:Hin.
  - destruct v as [v |].
    + exists (scored_entries 0 courses v). split.
      * apply predict_scored; auto.
      * apply scored_entries_length. auto.
    + exists (unavailable_results 0 courses). split.
      * eapply predict_unavailable; eauto.
      * apply unavailable_results_length.
  - exists (unavailable_results 0 courses). split.
    + eapply predict_unavailable; eauto.
    + apply unavailable_results_length.
Qed.

Lemma C8_witness :
  exists results,
    predict_scores_cvxpy reference_solver [course "A" (-3)] (-1) 150 150
    = Returned (results, cp.OPTIMAL)
    /\ List.length results = 1%nat.
Proof.
  apply (C8_no_validation reference_solver [course "A" (-3)] (-1) 150 150
           {| cp.status := cp.OPTIMAL; cp.value := Some [100 + 0 / -3] |}).
  - discriminate.
  - vm_compute. reflexivity.
  - intros v Hv. inversion Hv. reflexivity.
Defined.

(** C9: whenever the function returns, the result has exactly one entry
    per course, in the same order, each with the course's credit and name,
    and - the solver's values respecting the bounds of the variable - each
    score is either the marker "N/A" or a number of [0, 100] with two
    decimal places; and with an exact solver and at least one course the
    function does return. *)
Theorem C9_one_entry_per_course :
  forall (solve : cp.Problem -> outcome cp.Solution)
         (courses : list Course) (ctc cwa target : Q),
    respects_bounds solve ->
    (exact_solver solve -> courses <> [] ->
     exists results st,
       predict_scores_cvxpy solve courses ctc cwa target = Returned (results, st))
    /\ (forall results st,
          predict_scores_cvxpy solve courses ctc cwa target = Returned (results, st) ->
          Forall2 (carries presentable) courses results).
Proof.
  intros solve courses ctc cwa target Hbounds. split.
  - intros Hex Hne.
    destruct (predict_exact solve courses ctc cwa target Hex Hne)
      as [[v [_ Hv]] | [_ Hno]]; eauto.
  - intros results st Hret.
    rewrite predict_calls_solver in Hret.
    destruct (solve (problem_of courses ctc cwa target)) as [sol | e] eqn:Hs;
      [| discriminate].
    cbn [bind] in Hret.
    assert (Hna : Forall2 (carries presentable) courses
                    (unavailable_results 0 courses)).
    { apply unavailable_results_carries. left. reflexivity. }
    destruct (status_in (cp.status sol) [cp.OPTIMAL; cp.OPTIMAL_INACCURATE]);
      [| inversion Hret; subst; exact Hna].
    destruct (cp.value sol) as [v |] eqn:Hv;
      [| inversion Hret; subst; exact Hna].
    destruct (scored_results 0 courses v) as [r |] eqn:Hr; [| discriminate].
    cbn [bind] in Hret. inversion Hret; subst results st.
    pose proof (Hbounds _ sol v (problem_of_shape courses ctc cwa target)
                  Hs Hv) as Hbox.
    apply (scored_results_carries presentable v) with (i := O); [| exact Hr].
    intros x Hx. right.
    unfold in_box in Hbox. rewrite Forall_forall in Hbox.
    destruct (round2_hundredths x) as [z Hz].
    exists (np.round x 2), z. repeat split; auto; apply round2_in_box; auto.
Qed.

Lemma C9_witness :
  (exact_solver reference_solver -> scenarioB <> [] ->
   exists results st,
     predict_scores_cvxpy reference_solver scenarioB 60 70 72
     = Returned (results, st))
  /\ (forall results st,
        predict_scores_cvxpy reference_solver scenarioB 60 70 72
        = Returned (results, st) ->
        Forall2 (carries presentable) scenarioB results).
Proof.
  apply (C9_one_entry_per_course reference_solver scenarioB 60 70 72).
  exact (exact_solver_respects_bounds reference_solver reference_solver_exact).
Defined.

(** C10: if the solver reports OPTIMAL or OPTIMAL_INACCURATE and leaves
    [scores.value] at [None], the function raises nothing: it returns that
    status with one entry per course, in order, each with the course's
    name and credit and the score "N/A". *)
Theorem C10_missing_values_give_NA :
  forall (solve : cp.Problem -> outcome cp.Solution)
         (courses : list Course) (ctc cwa target : Q)
         (scores : cp.variable) (st : string),
    cp.Variable_ (List.length (map course_credit courses)) = Returned scores ->
    solve {| cp.scores := scores;
             cp.credits := map course_credit courses;
             cp.required_points := required_points courses ctc cwa target |}
    = Returned {| cp.status := st; cp.value := None |} ->
    st = cp.OPTIMAL \/ st = cp.OPTIMAL_INACCURATE ->
    exists results,
      predict_scores_cvxpy solve courses ctc cwa target = Returned (results, st)
      /\ Forall2 (carries unavailable) courses results.
Proof.
  intros solve courses ctc cwa target scores st Hvar Hsol _.
  exists (unavailable_results 0 courses). split.
  - unfold predict_scores_cvxpy. rewrite Hvar. cbn [bind].
    rewrite Hsol. cbn [bind cp.status cp.value].
    destruct (status_in st _); reflexivity.
  - apply unavailable_results_carries. reflexivity.
Qed.

Lemma C10_witness :
  exists results,
    predict_scores_cvxpy (const_solver cp.OPTIMAL None) scenarioC 30 90 85
    = Returned (results, cp.OPTIMAL)
    /\ Forall2 (carries unavailable) scenarioC results.
Proof.
  apply (C10_missing_values_give_NA (const_solver cp.OPTIMAL None)
           scenarioC 30 90 85 {| cp.shape := 1 |} cp.OPTIMAL).
  - reflexivity.
  - reflexivity.
  - left. reflexivity.
Defined.

(** * The page around the function *)

(** ** Rows, "Add Course" and "Submit" *)

Section Rows.

Lemma min_step_below (n k : nat) :
  (n < k)%nat -> Nat.min (S n) k = S (Nat.min n k).
Proof. lia. Qed.

Lemma min_step_full (n k : nat) :
  (k <= n)%nat -> Nat.min (S n) k = Nat.min n k.
Proof. lia. Qed.

(** With "Courses Taken" fixed at [courses_taken], [n] clicks on
    "Add Course" from the empty list leave [min n (max courses_taken 0)]
    rows, all blank; and the click after them shows the warning exactly
    when [max courses_taken 0 <= n]. *)
Theorem add_course_clicks :
  forall (courses_taken : Z) (n : nat),
    let click := fun l => fst (add_course courses_taken l) in
    Nat.iter n click []
    = repeat blank_row (Nat.min n (Z.to_nat courses_taken))
    /\ (snd (add_course courses_taken (Nat.iter n click [])) = true
        <-> (Z.to_nat courses_taken <= n)%nat).
Proof.
  intros courses_taken n click.
  assert (Hlist : Nat.iter n click []
                  = repeat blank_row (Nat.min n (Z.to_nat courses_taken))).
  { induction n as [| n IH]; [reflexivity |].
    cbn [Nat.iter nat_rect]. fold (Nat.iter n click (@nil Row)).
    rewrite IH. unfold click, add_course. rewrite repeat_length.
    destruct (Z.ltb_spec (Z.of_nat (Nat.min n (Z.to_nat courses_taken)))
                courses_taken) as [Hlt | Hge]; cbn [fst].
    - rewrite min_step_below by lia.
      now rewrite <- repeat_cons.
    - now rewrite min_step_full by lia. }
  split; [exact Hlist |].
  rewrite Hlist. unfold add_course. rewrite repeat_length.
  destruct (Z.ltb_spec (Z.of_nat (Nat.min n (Z.to_nat courses_taken)))
              courses_taken) as [Hlt | Hge]; cbn [snd]; split; intros H;
    try discriminate; try reflexivity; lia.
Qed.

Lemma submit_filter (rows : list Row) :
  submit rows
  = map (fun r => {| course_name := Some (row_name r);
                     course_credit := row_credit r |})
        (filter (fun r => negb (String.eqb (row_name r) "")) rows).
Proof.
  induction rows as [| r rows IH]; simpl; [reflexivity |].
  destruct (String.eqb (row_name r) ""); simpl; now rewrite IH.
Qed.

Lemma submit_nil_iff (rows : list Row) :
  submit rows = [] <-> Forall (fun r => row_name r = ""%string) rows.
Proof.
  induction rows as [| r rows IH]; simpl.
  - split; [constructor | reflexivity].
  - destruct (String.eqb_spec (row_name r) "") as [E | N]; simpl.
    + rewrite IH. split; [now constructor | now inversion 1].
    + split; [discriminate | inversion 1; contradiction].
Qed.

End Rows.

(** "Submit" stores the empty list exactly when no row has a name - as
    after any number of "Add Course" clicks with nothing typed - and the
    run that follows takes the empty list to the solver: with an exact
    solver the card announces an optimal solution over an empty table
    when the threshold [target * credits - cwa * credits] is zero or
    negative, and reads "not achievable" when it is positive. *)
Theorem unnamed_rows_reach_the_solver :
  forall (solve : cp.Problem -> outcome cp.Solution) (rows : list Row)
         (courses_taken : Z) (n : nat) (total_credits ctc cwa target : Q),
    exact_solver solve ->
    (submit rows = [] <-> Forall (fun r => row_name r = ""%string) rows)
    /\ submit (Nat.iter n (fun l => fst (add_course courses_taken l)) []) = []
    /\ (submit rows = [] ->
        (target * ctc - cwa * ctc <= 0 ->
         grade_calculator solve (submit rows) total_credits ctc cwa target
         = Returned (Optimal_solution_found []))
        /\ (0 < target * ctc - cwa * ctc ->
            grade_calculator solve (submit rows) total_credits ctc cwa target
            = Returned Target_not_achievable)).
Proof.
  intros solve rows courses_taken n total_credits ctc cwa target Hex.
  split; [apply submit_nil_iff |]. split.
  - apply submit_nil_iff.
    induction n as [| n IH]; [constructor |].
    cbn [Nat.iter nat_rect].
    fold (Nat.iter n (fun l => fst (add_course courses_taken l)) (@nil Row)).
    unfold add_course at 1.
    destruct (Z.ltb _ _); cbn [fst]; [| exact IH].
    apply Forall_app. split; [exact IH | repeat constructor].
  - intros E. rewrite E. unfold grade_calculator.
    assert (HR : required_points [] ctc cwa target == target * ctc - cwa * ctc).
    { unfold required_points. simpl. lra. }
    destruct (predict_exact_any solve [] ctc cwa target Hex)
      as [[v [[[Hlen [Hreq _]] _] Hv]] | [Hno Hv]]; rewrite Hv.
    + simpl in Hlen, Hreq. destruct v; [| discriminate]. simpl in Hreq.
      split; [reflexivity | intros H; lra].
    + split; [| reflexivity].
      intros H. exfalso. apply (Hno []).
      unfold feasible. simpl. repeat split; [lra | constructor].
Qed.

Lemma unnamed_rows_reach_the_solver_witness :
  (submit [blank_row; blank_row] = []
   <-> Forall (fun r => row_name r = ""%string) [blank_row; blank_row])
  /\ submit (Nat.iter 2%nat (fun l => fst (add_course 5 l)) []) = []
  /\ (submit [blank_row; blank_row] = [] ->
      (0 * 0 - 0 * 0 <= 0 ->
       grade_calculator reference_solver (submit [blank_row; blank_row]) 0 0 0 0
       = Returned (Optimal_solution_found []))
      /\ (0 < 0 * 0 - 0 * 0 ->
          grade_calculator reference_solver (submit [blank_row; blank_row])
            0 0 0 0
          = Returned Target_not_achievable)).
Proof.
  exact (unnamed_rows_reach_the_solver reference_solver [blank_row; blank_row]
           5 2 0 0 0 0 reference_solver_exact).
Defined.

(** ** What a returned result is made of *)

Section Returned.

Variable solve : cp.Problem -> outcome cp.Solution.
Variables (courses : list Course) (ctc cwa target : Q).

(** A returned result comes from one of the two loops. *)
Lemma predict_returned_inv (results : list Entry) (st : string) :
  predict_scores_cvxpy solve courses ctc cwa target = Returned (results, st) ->
  exists sol,
    solve (problem_of courses ctc cwa target) = Returned sol
    /\ cp.status sol = st
    /\ ((exists v, cp.value sol = Some v
                   /\ status_in st [cp.OPTIMAL; cp.OPTIMAL_INACCURATE] = true
                   /\ scored_results 0 courses v = Returned results)
        \/ results = unavailable_results 0 courses).
Proof.
  intros Hret.
  rewrite predict_calls_solver in Hret.
  destruct (solve (problem_of courses ctc cwa target)) as [sol | e];
    [| discriminate].
  cbn [bind] in Hret. exists sol. split; [reflexivity |].
  destruct (status_in (cp.status sol) [cp.OPTIMAL; cp.OPTIMAL_INACCURATE])
    eqn:Hin.
  - destruct (cp.value sol) as [v |].
    + destruct (scored_results 0 courses v) as [r |] eqn:Hr; [| discriminate].
      cbn [bind] in Hret. inversion Hret; subst.
      split; [reflexivity |]. left. exists v. auto.
    + inversion Hret; subst. split; [reflexivity |]. now right.
  - inversion Hret; subst. split; [reflexivity |]. now right.
Qed.

End Returned.

Lemma scored_results_names (v : list Q) (courses : list Course) :
  forall (i : nat) (r : list Entry),
    scored_results i courses v = Returned r ->
    map name r = names_from i courses
    /\ map credit r = map course_credit courses.
Proof.
  induction courses as [| c rest IH]; intros i r Hret; simpl in Hret.
  - inversion Hret. split; reflexivity.
  - destruct (getitem v i) as [x |]; [| discriminate]. cbn [bind] in Hret.
    destruct (scored_results (S i) rest v) as [tl |] eqn:Htl; [| discriminate].
    cbn [bind] in Hret. inversion Hret; subst r.
    destruct (IH (S i) tl Htl) as [IH1 IH2]. simpl. now rewrite IH1, IH2.
Qed.

Lemma unavailable_results_names (courses : list Course) :
  forall i : nat,
    map name (unavailable_results i courses) = names_from i courses
    /\ map credit (unavailable_results i courses) = map course_credit courses.
Proof.
  induction courses as [| c rest IH]; intros i; simpl; [split; reflexivity |].
  destruct (IH (S i)) as [IH1 IH2]. now rewrite IH1, IH2.
Qed.

Lemma predict_returned_names (solve : cp.Problem -> outcome cp.Solution)
    (courses : list Course) (ctc cwa target : Q)
    (results : list Entry) (st : string) :
  predict_scores_cvxpy solve courses ctc cwa target = Returned (results, st) ->
  map name results = names_from 0 courses
  /\ map credit results = map course_credit courses.
Proof.
  intros Hret.
  destruct (predict_returned_inv solve courses ctc cwa target results st Hret)
    as [sol [_ [_ [[v [_ [_ Hr]]] | Hr]]]].
  - exact (scored_results_names v courses 0 results Hr).
  - subst results. apply unavailable_results_names.
Qed.

Lemma names_from_submit (rows : list Row) :
  forall i : nat,
    names_from i (submit rows)
    = map row_name (filter (fun r => negb (String.eqb (row_name r) "")) rows).
Proof.
  induction rows as [| r rows IH]; intros i; simpl; [reflexivity |].
  destruct (String.eqb (row_name r) ""); simpl; [apply IH |].
  unfold get_name. simpl. now rewrite IH.
Qed.

(** Every entry returned for submitted rows carries the name and the
    credit typed in the corresponding named row, in order; no name is
    empty, and the default name "Course i" is never used. *)
Theorem submitted_names_are_kept :
  forall (solve : cp.Problem -> outcome cp.Solution) (rows : list Row)
         (ctc cwa target : Q) (results : list Entry) (st : string),
    predict_scores_cvxpy solve (submit rows) ctc cwa target
    = Returned (results, st) ->
    let named := filter (fun r => negb (String.eqb (row_name r) "")) rows in
    map name results = map row_name named
    /\ map credit results = map row_credit named
    /\ Forall (fun nm => nm <> EmptyString) (map name results).
Proof.
  intros solve rows ctc cwa target results st Hret named.
  destruct (predict_returned_names solve _ ctc cwa target results st Hret)
    as [Hn Hc].
  rewrite names_from_submit in Hn. fold named in Hn.
  split; [exact Hn |]. split.
  - rewrite Hc, submit_filter, map_map. reflexivity.
  - rewrite Hn. apply Forall_forall. intros nm Hin.
    apply in_map_iff in Hin. destruct Hin as [r [E Hr]]. subst nm.
    unfold named in Hr. apply filter_In in Hr. destruct Hr as [_ Hr].
    intros E. rewrite E in Hr. discriminate.
Qed.

Lemma submitted_names_are_kept_witness :
  let rows := [ {| row_name := "Math"; row_credit := 3 |};
                blank_row;
                {| row_name := "Physics"; row_credit := 0 |} ] in
  let named := filter (fun r => negb (String.eqb (row_name r) "")) rows in
  let results := [ {| name := "Math"; credit := 3; score := PyFloat 91 |};
                   {| name := "Physics"; credit := 0; score := PyFloat 0 |} ] in
  map name results = map row_name named
  /\ map credit results = map row_credit named
  /\ Forall (fun nm => nm <> EmptyString) (map name results).
Proof.
  apply (submitted_names_are_kept reference_solver
           [ {| row_name := "Math"; row_credit := 3 |};
             blank_row;
             {| row_name := "Physics"; row_credit := 0 |} ]
           60 70 71 _ cp.OPTIMAL).
  vm_compute. reflexivity.
Defined.

(** ** Names *)

Lemma scored_results_forget_names (v : list Q) (cs1 : list Course) :
  forall (cs2 : list Course) (i : nat),
    map course_credit cs1 = map course_credit cs2 ->
    match scored_results i cs1 v, scored_results i cs2 v with
    | Returned r1, Returned r2 =>
        map (fun e => (credit e, score e)) r1
        = map (fun e => (credit e, score e)) r2
    | Raised e1, Raised e2 => e1 = e2
    | _, _ => False
    end.
Proof.
  induction cs1 as [| c1 cs1 IH]; intros [| c2 cs2] i Hcr; simpl in *;
    try discriminate; [reflexivity |].
  inversion Hcr as [[Hc Hrest]].
  destruct (getitem v i) as [x | e]; cbn [bind]; [| reflexivity].
  specialize (IH cs2 (S i) Hrest).
  destruct (scored_results (S i) cs1 v) as [r1 | e1],
           (scored_results (S i) cs2 v) as [r2 | e2];
    cbn [bind]; try contradiction; [| exact IH].
  simpl. now rewrite Hc, IH.
Qed.

Lemma unavailable_results_forget_names (cs1 : list Course) :
  forall (cs2 : list Course) (i : nat),
    map course_credit cs1 = map course_credit cs2 ->
    map (fun e => (credit e, score e)) (unavailable_results i cs1)
    = map (fun e => (credit e, score e)) (unavailable_results i cs2).
Proof.
  induction cs1 as [| c1 cs1 IH]; intros [| c2 cs2] i Hcr; simpl in *;
    try discriminate; [reflexivity |].
  inversion Hcr as [[Hc Hrest]]. now rewrite Hc, (IH cs2 (S i) Hrest).
Qed.

(** The names play no part in the solve: two course lists with the same
    credits in the same order get the same status and, entry by entry,
    the same credits and scores - or the same exception - whatever the
    solver does. *)
Theorem names_do_not_matter :
  forall (solve : cp.Problem -> outcome cp.Solution)
         (courses1 courses2 : list Course) (ctc cwa target : Q),
    map course_credit courses1 = map course_credit courses2 ->
    scores_and_status (predict_scores_cvxpy solve courses1 ctc cwa target)
    = scores_and_status (predict_scores_cvxpy solve courses2 ctc cwa target).
Proof.
  intros solve courses1 courses2 ctc cwa target Hcr.
  unfold predict_scores_cvxpy, required_points. rewrite Hcr.
  destruct (cp.Variable_ (List.length (map course_credit courses2)))
    as [scores | e]; cbn [bind]; [| reflexivity].
  destruct (solve _) as [sol | e]; cbn [bind]; [| reflexivity].
  destruct (status_in (cp.status sol) [cp.OPTIMAL; cp.OPTIMAL_INACCURATE]).
  - destruct (cp.value sol) as [v |].
    + pose proof (scored_results_forget_names v courses1 courses2 0 Hcr) as H.
      destruct (scored_results 0 courses1 v) as [r1 | e1],
               (scored_results 0 courses2 v) as [r2 | e2];
        cbn [bind scores_and_status]; try contradiction; congruence.
    + cbn [scores_and_status].
      now rewrite (unavailable_results_forget_names courses1 courses2 0 Hcr).
  - cbn [scores_and_status].
    now rewrite (unavailable_results_forget_names courses1 courses2 0 Hcr).
Qed.

Lemma names_do_not_matter_witness :
  scores_and_status
    (predict_scores_cvxpy reference_solver
       [course "Algebra" 3; course "Logic" 3] 60 70 72)
  = scores_and_status
      (predict_scores_cvxpy reference_solver
         [ {| course_name := None; course_credit := 3 |};
           course "Algebra" 3 ] 60 70 72).
Proof.
  apply (names_do_not_matter reference_solver
           [course "Algebra" 3; course "Logic" 3]
           [ {| course_name := None; course_credit := 3 |};
             course "Algebra" 3 ] 60 70 72).
  reflexivity.
Defined.

Lemma str_inj (n m : nat) : str n = str m -> n = m.
Proof.
  unfold str. intros E.
  apply DecimalNat.Unsigned.to_uint_inj.
  assert (H : NilEmpty.uint_of_string (NilEmpty.string_of_uint (Nat.to_uint n))
              = NilEmpty.uint_of_string (NilEmpty.string_of_uint (Nat.to_uint m)))
    by now rewrite E.
  rewrite !NilEmpty.usu in H. now inversion H.
Qed.

Lemma default_name_inj (i j : nat) :
  ("Course " ++ str (i + 1))%string = ("Course " ++ str (j + 1))%string ->
  i = j.
Proof.
  simpl. intros E. inversion E as [E']. apply str_inj in E'. lia.
Qed.

Lemma names_from_default (courses : list Course) :
  forall i : nat,
    Forall (fun c => course_name c = None) courses ->
    names_from i courses
    = map (fun k => ("Course " ++ str (k + 1))%string)
          (seq i (List.length courses)).
Proof.
  induction courses as [| c rest IH]; intros i Hnone; simpl; [reflexivity |].
  inversion Hnone as [| ? ? Hc Hrest]; subst.
  unfold get_name. rewrite Hc. now rewrite (IH (S i) Hrest).
Qed.

(** Courses passed without a "name" key are named after their position,
    counted from 1: the entries are called "Course 1", "Course 2", ... in
    order, and no two of these names are equal. *)
Theorem default_names_are_numbered :
  forall (solve : cp.Problem -> outcome cp.Solution)
         (courses : list Course) (ctc cwa target : Q)
         (results : list Entry) (st : string),
    Forall (fun c => course_name c = None) courses ->
    predict_scores_cvxpy solve courses ctc cwa target = Returned (results, st) ->
    map name results
    = map (fun k => ("Course " ++ str (k + 1))%string)
          (seq 0 (List.length courses))
    /\ NoDup (map name results).
Proof.
  intros solve courses ctc cwa target results st Hnone Hret.
  destruct (predict_returned_names solve courses ctc cwa target results st Hret)
    as [Hn _].
  rewrite (names_from_default courses 0 Hnone) in Hn.
  split; [exact Hn |]. rewrite Hn.
  apply NoDup_map_NoDup_ForallPairs; [| apply seq_NoDup].
  intros i j _ _. apply default_name_inj.
Qed.

Lemma default_names_are_numbered_witness :
  let courses := [ {| course_name := None; course_credit := 3 |};
                   {| course_name := None; course_credit := 3 |} ] in
  let results := [ {| name := "Course 1"; credit := 3; score := PyFloat 100 |};
                   {| name := "Course 2"; credit := 3; score := PyFloat 84 |} ] in
  map name results
  = map (fun k => ("Course " ++ str (k + 1))%string)
        (seq 0 (List.length courses))
  /\ NoDup (map name results).
Proof.
  apply (default_names_are_numbered reference_solver
           [ {| course_name := None; course_credit := 3 |};
             {| course_name := None; course_credit := 3 |} ]
           60 70 72 _ cp.OPTIMAL).
  - repeat constructor.
  - vm_compute. reflexivity.
Defined.

(** ** The card *)

Section CardUnderContract.

Variable solve : cp.Problem -> outcome cp.Solution.
Hypothesis solve_exact : exact_solver solve.

Variables (courses : list Course) (total_credits ctc cwa target : Q).
Hypothesis some_course : courses <> [].
Hypothesis credits_positive : positive_credits courses.
Hypothesis history_nonneg : 0 <= ctc.

Lemma credits_after_pos : 0 < ctc + np.sum (map course_credit courses).
Proof.
  pose proof (sum_credits_pos courses some_course credits_positive). lra.
Qed.

(** The target is within reach exactly when it does not exceed the best
    average. *)
Lemma within_reach_iff :
  required_points courses ctc cwa target <= max_points courses
  <-> target <= best_average courses ctc cwa.
Proof.
  pose proof credits_after_pos as HD.
  unfold required_points, best_average.
  set (S := np.sum (map course_credit courses)) in *.
  set (M := max_points courses).
  assert (Hb : (cwa * ctc + M) / (ctc + S) * (ctc + S) == cwa * ctc + M)
    by (field; lra).
  set (b := (cwa * ctc + M) / (ctc + S)) in *.
  split; intros H; nra.
Qed.

Lemma card_when_within_reach :
  required_points courses ctc cwa target <= max_points courses ->
  exists table,
    grade_calculator solve courses total_credits ctc cwa target
    = Returned (Optimal_solution_found table)
    /\ Forall2 (carries (fun sc => exists x, sc = PyFloat x
                                             /\ 0 <= x /\ x <= 100))
         courses table.
Proof.
  intros Hmax.
  destruct (predict_within_reach solve solve_exact courses ctc cwa target
              some_course Hmax) as [v [[[Hlen [_ Hbox]] _] Hret]].
  simpl in Hlen.
  exists (scored_entries 0 courses v). split.
  - unfold grade_calculator. rewrite Hret. reflexivity.
  - apply scored_entries_carries; [exact Hlen |].
    eapply Forall_impl; [| exact Hbox].
    intros x Hx. cbn beta in *. exists (np.round x 2).
    split; [reflexivity |]. now apply round2_in_box.
Qed.

Lemma card_when_out_of_reach :
  max_points courses < required_points courses ctc cwa target ->
  grade_calculator solve courses total_credits ctc cwa target
  = Returned Target_not_achievable.
Proof.
  intros Hgt. unfold grade_calculator.
  rewrite (infeasible_beyond_max_points solve solve_exact courses ctc cwa target
             some_course credits_positive Hgt).
  reflexivity.
Qed.

End CardUnderContract.

(** With an exact solver, at least one course, positive credits and a
    non-negative credit history, the card shows the table of scores, each
    a number of [0, 100], exactly when the target does not exceed the best
    average [(cwa * credits + 100 * new credits) / (credits + new credits)],
    and "not achievable" otherwise; it never shows the solver warning, and
    the expected total of credit hours plays no part. *)
Theorem card_follows_best_average :
  forall (solve : cp.Problem -> outcome cp.Solution)
         (courses : list Course) (total_credits ctc cwa target : Q),
    exact_solver solve ->
    courses <> [] -> positive_credits courses -> 0 <= ctc ->
    (target <= best_average courses ctc cwa ->
     exists table,
       grade_calculator solve courses total_credits ctc cwa target
       = Returned (Optimal_solution_found table)
       /\ Forall2 (carries (fun sc => exists x, sc = PyFloat x
                                                /\ 0 <= x /\ x <= 100))
            courses table)
    /\ (best_average courses ctc cwa < target ->
        grade_calculator solve courses total_credits ctc cwa target
        = Returned Target_not_achievable)
    /\ (forall st,
          grade_calculator solve courses total_credits ctc cwa target
          <> Returned (Solver_issue st)).
Proof.
  intros solve courses total_credits ctc cwa target Hex Hne Hpos Hctc.
  pose proof (within_reach_iff courses ctc cwa target Hne Hpos Hctc) as Hiff.
  assert (Hin : target <= best_average courses ctc cwa ->
                exists table,
                  grade_calculator solve courses total_credits ctc cwa target
                  = Returned (Optimal_solution_found table)
                  /\ Forall2 (carries (fun sc => exists x, sc = PyFloat x
                                                           /\ 0 <= x /\ x <= 100))
                       courses table).
  { intros H. apply card_when_within_reach; auto. now apply Hiff. }
  assert (Hout : best_average courses ctc cwa < target ->
                 grade_calculator solve courses total_credits ctc cwa target
                 = Returned Target_not_achievable).
  { intros H. apply card_when_out_of_reach; auto.
    apply Qnot_le_lt. intros Hle. apply Hiff in Hle. lra. }
  split; [exact Hin |]. split; [exact Hout |].
  intros st Hst.
  destruct (Qlt_le_dec (best_average courses ctc cwa) target) as [Hlt | Hle].
  - rewrite (Hout Hlt) in Hst. discriminate.
  - destruct (Hin Hle) as [table [Ht _]]. rewrite Ht in Hst. discriminate.
Qed.

Lemma card_follows_best_average_witness :
  (72 <= best_average scenarioB 60 70 ->
   exists table,
     grade_calculator reference_solver scenarioB 9 60 70 72
     = Returned (Optimal_solution_found table)
     /\ Forall2 (carries (fun sc => exists x, sc = PyFloat x
                                              /\ 0 <= x /\ x <= 100))
          scenarioB table)
  /\ (best_average scenarioB 60 70 < 72 ->
      grade_calculator reference_solver scenarioB 9 60 70 72
      = Returned Target_not_achievable)
  /\ (forall st,
        grade_calculator reference_solver scenarioB 9 60 70 72
        <> Returned (Solver_issue st)).
Proof.
  apply (card_follows_best_average reference_solver scenarioB 9 60 70 72).
  - exact reference_solver_exact.
  - discriminate.
  - repeat constructor.
  - vm_compute. discriminate.
Defined.

(** When the solver reports OPTIMAL or OPTIMAL_INACCURATE without values,
    the card still announces an optimal solution, over a table in which
    every score is "N/A". *)
Theorem success_card_without_scores :
  forall (solve : cp.Problem -> outcome cp.Solution)
         (courses : list Course) (total_credits ctc cwa target : Q)
         (scores : cp.variable) (st : string),
    cp.Variable_ (List.length (map course_credit courses)) = Returned scores ->
    solve {| cp.scores := scores;
             cp.credits := map course_credit courses;
             cp.required_points := required_points courses ctc cwa target |}
    = Returned {| cp.status := st; cp.value := None |} ->
    st = cp.OPTIMAL \/ st = cp.OPTIMAL_INACCURATE ->
    exists table,
      grade_calculator solve courses total_credits ctc cwa target
      = Returned (Optimal_solution_found table)
      /\ List.length table = List.length courses
      /\ Forall (fun e => score e = PyStr "N/A") table.
Proof.
  intros solve courses total_credits ctc cwa target scores st Hvar Hsol Hst.
  exists (unavailable_results 0 courses). split; [| split].
  - unfold grade_calculator, predict_scores_cvxpy.
    rewrite Hvar. cbn [bind]. rewrite Hsol. cbn [bind cp.status cp.value].
    assert (Hin : status_in st [cp.OPTIMAL; cp.OPTIMAL_INACCURATE] = true).
    { destruct Hst; subst st; reflexivity. }
    rewrite Hin. cbn [bind fst snd]. unfold feasibility_card. now rewrite Hin.
  - apply unavailable_results_length.
  - apply unavailable_results_scores.
Qed.

Lemma success_card_without_scores_witness :
  exists table,
    grade_calculator (const_solver cp.OPTIMAL_INACCURATE None)
           scenarioA 9 78 (157 # 2) 85
    = Returned (Optimal_solution_found table)
    /\ List.length table = List.length scenarioA
    /\ Forall (fun e => score e = PyStr "N/A") table.
Proof.
  apply (success_card_without_scores (const_solver cp.OPTIMAL_INACCURATE None)
           scenarioA 9 78 (157 # 2) 85 {| cp.shape := 3 |}
           cp.OPTIMAL_INACCURATE).
  - reflexivity.
  - reflexivity.
  - right. reflexivity.
Defined.

(** ** What the suggested scores achieve *)

(** With an exact solver, at least one course, positive credits, a
    non-negative credit history and a threshold between nothing and the
    maximum, obtaining exactly the returned scores brings the cumulative
    average within 0.005 of the target - above it or below it. *)
Theorem average_after_near_target :
  forall (solve : cp.Problem -> outcome cp.Solution)
         (courses : list Course) (ctc cwa target : Q),
    exact_solver solve ->
    courses <> [] -> positive_credits courses -> 0 <= ctc ->
    0 < required_points courses ctc cwa target ->
    required_points courses ctc cwa target <= max_points courses ->
    exists results xs,
      predict_scores_cvxpy solve courses ctc cwa target
      = Returned (results, cp.OPTIMAL)
      /\ float_scores results = Some xs
      /\ Qabs (average_after ctc cwa results xs - target) <= half_cent.
Proof.
  intros solve courses ctc cwa target Hex Hne Hpos Hctc H0 Hmax.
  destruct (predict_within_reach solve Hex courses ctc cwa target Hne Hmax)
    as [v [Hopt Hret]].
  pose proof (optimal_total courses ctc cwa target v Hne Hpos H0 Hmax Hopt)
    as Htot.
  destruct Hopt as [[Hlen _] _]. simpl in Hlen.
  exists (scored_entries 0 courses v), (map (fun x => np.round x 2) v).
  split; [exact Hret |]. split; [now apply scored_entries_scores |].
  unfold average_after. rewrite scored_entries_credit by assumption.
  destruct (dot_round_near (map course_credit courses) v
              (positive_credits_nonneg courses Hpos)) as [B1 B2].
  { now rewrite length_map. }
  pose proof (sum_credits_pos courses Hne Hpos) as HS.
  unfold required_points in Htot.
  set (S := np.sum (map course_credit courses)) in *.
  set (T := np.dot (map course_credit courses) (map (fun x => np.round x 2) v))
    in *.
  assert (Hq : (cwa * ctc + T) / (ctc + S) * (ctc + S) == cwa * ctc + T)
    by (field; lra).
  set (a := (cwa * ctc + T) / (ctc + S)) in *.
  unfold half_cent in *.
  apply Qabs_Qle_condition. split; nra.
Qed.

Lemma average_after_near_target_witness :
  exists results xs,
    predict_scores_cvxpy reference_solver [course "A" 3] 1 0 25
    = Returned (results, cp.OPTIMAL)
    /\ float_scores results = Some xs
    /\ Qabs (average_after 1 0 results xs - 25) <= half_cent.
Proof.
  apply (average_after_near_target reference_solver [course "A" 3] 1 0 25).
  - exact reference_solver_exact.
  - discriminate.
  - repeat constructor.
  - vm_compute. discriminate.
  - reflexivity.
  - vm_compute. discriminate.
Defined.

(** Lowering the target never loses a solution: with an exact solver, at
    least one course, positive credits and a non-negative credit history,
    a status OPTIMAL at one target gives OPTIMAL at every lower target. *)
Theorem lower_target_stays_optimal :
  forall (solve : cp.Problem -> outcome cp.Solution)
         (courses : list Course) (ctc cwa target lower : Q)
         (results : list Entry),
    exact_solver solve ->
    courses <> [] -> positive_credits courses -> 0 <= ctc ->
    lower <= target ->
    predict_scores_cvxpy solve courses ctc cwa target
    = Returned (results, cp.OPTIMAL) ->
    exists results',
      predict_scores_cvxpy solve courses ctc cwa lower
      = Returned (results', cp.OPTIMAL).
Proof.
  intros solve courses ctc cwa target lower results Hex Hne Hpos Hctc Hle Hret.
  assert (Hmax : required_points courses ctc cwa target <= max_points courses).
  { destruct (predict_exact solve courses ctc cwa target Hex Hne)
      as [[v [[[_ [Hreq Hbox]] _] _]] | [_ Hno]].
    - simpl in Hreq.
      pose proof (dot_le_max_points courses Hpos v Hbox). lra.
    - rewrite Hno in Hret. inversion Hret. }
  assert (Hlow : required_points courses ctc cwa lower <= max_points courses).
  { pose proof (sum_credits_pos courses Hne Hpos) as HS.
    unfold required_points in *.
    set (S := np.sum (map course_credit courses)) in *. nra. }
  destruct (predict_within_reach solve Hex courses ctc cwa lower Hne Hlow)
    as [v [_ Hv]].
  eauto.
Qed.

Lemma lower_target_stays_optimal_witness :
  exists results',
    predict_scores_cvxpy reference_solver scenarioB 60 70 71
    = Returned (results', cp.OPTIMAL).
Proof.
  apply (lower_target_stays_optimal reference_solver scenarioB 60 70 72 71
           [ {| name := "A"; credit := 3; score := PyFloat 100 |};
             {| name := "B"; credit := 3; score := PyFloat 84 |} ]).
  - exact reference_solver_exact.
  - discriminate.
  - repeat constructor.
  - vm_compute. discriminate.
  - vm_compute. discriminate.
  - vm_compute. reflexivity.
Defined.

(** A point of the box that brings the maximum is 100 everywhere. *)
Lemma dot_max_all_100 (courses : list Course) :
  positive_credits courses ->
  forall s, in_box s -> List.length s = List.length courses ->
    max_points courses <= np.dot (map course_credit courses) s ->
    Forall (fun x => x == 100) s.
Proof.
  unfold max_points.
  induction 1 as [| c rest Hc Hrest IH]; intros s Hbox Hlen Hdot.
  - destruct s; [constructor | discriminate].
  - destruct Hbox as [| x s' [Hx0 Hx1] Hbox']; [discriminate |].
    simpl in *.
    pose proof (dot_le_max_points rest Hrest s' Hbox') as Hr.
    unfold max_points in Hr.
    constructor.
    + nra.
    + apply IH; auto. nra.
Qed.

(** At the limit - a threshold equal to [sum(credit_i * 100)] - an exact
    solver leaves no choice: with at least one course and positive
    credits the status is OPTIMAL and every score is 100. *)
Theorem full_marks_at_the_limit :
  forall (solve : cp.Problem -> outcome cp.Solution)
         (courses : list Course) (ctc cwa target : Q),
    exact_solver solve ->
    courses <> [] -> positive_credits courses ->
    required_points courses ctc cwa target == max_points courses ->
    exists results,
      predict_scores_cvxpy solve courses ctc cwa target
      = Returned (results, cp.OPTIMAL)
      /\ Forall2 (carries (fun sc => sc = PyFloat 100)) courses results.
Proof.
  intros solve courses ctc cwa target Hex Hne Hpos Heq.
  assert (Hmax : required_points courses ctc cwa target <= max_points courses)
    by lra.
  destruct (predict_within_reach solve Hex courses ctc cwa target Hne Hmax)
    as [v [[[Hlen [Hreq Hbox]] _] Hret]].
  simpl in Hlen, Hreq.
  exists (scored_entries 0 courses v). split; [exact Hret |].
  assert (Hall : Forall (fun x => x == 100) v).
  { apply (dot_max_all_100 courses Hpos v Hbox Hlen). lra. }
  apply scored_entries_carries; [exact Hlen |].
  eapply Forall_impl; [| exact Hall].
  intros x Hx. cbn beta. now rewrite (round2_proper x 100 Hx).
Qed.

Lemma full_marks_at_the_limit_witness :
  exists results,
    predict_scores_cvxpy reference_solver scenarioB 60 70 (800 # 11)
    = Returned (results, cp.OPTIMAL)
    /\ Forall2 (carries (fun sc => sc = PyFloat 100)) scenarioB results.
Proof.
  apply (full_marks_at_the_limit reference_solver scenarioB 60 70 (800 # 11)).
  - exact reference_solver_exact.
  - discriminate.
  - repeat constructor.
  - reflexivity.
Defined.

(** One course of positive credit [c], with an exact solver: the score is
    0 when the threshold [R] is zero or negative, [R / c] rounded to two
    decimal places when [0 < R <= 100 * c], and "N/A" with the status
    INFEASIBLE beyond. *)
Theorem one_course_closed_form :
  forall (solve : cp.Problem -> outcome cp.Solution)
         (nm : string) (c ctc cwa target : Q),
    exact_solver solve ->
    0 < c ->
    let R := required_points [course nm c] ctc cwa target in
    predict_scores_cvxpy solve [course nm c] ctc cwa target
    = if Qle_bool R 0
      then Returned ([ {| name := nm; credit := c; score := PyFloat 0 |} ],
                     cp.OPTIMAL)
      else if Qle_bool R (c * 100)
           then Returned ([ {| name := nm; credit := c;
                               score := PyFloat (np.round (R / c) 2) |} ],
                          cp.OPTIMAL)
           else Returned ([ {| name := nm; credit := c;
                               score := PyStr "N/A" |} ],
                          cp.INFEASIBLE).
Proof.
  intros solve nm c ctc cwa target Hex Hc R.
  assert (Hne : [course nm c] <> []) by discriminate.
  assert (Hpos : positive_credits [course nm c]).
  { constructor; [exact Hc | constructor]. }
  assert (HM : max_points [course nm c] == c * 100).
  { unfold max_points. simpl. lra. }
  destruct (Qle_bool_cases R 0) as [[E H] | [E H]]; rewrite E.
  - assert (Hmax : R <= max_points [course nm c]) by lra.
    destruct (predict_within_reach solve Hex _ ctc cwa target Hne Hmax)
      as [v [[[Hlen [_ Hbox]] Hmin] Hret]].
    simpl in Hlen. destruct v as [| x [| y v']]; try discriminate.
    assert (Hzero : feasible (problem_of [course nm c] ctc cwa target) [0]).
    { unfold feasible. simpl. repeat split; try lra.
      - fold R. lra.
      - repeat constructor; lra. }
    specialize (Hmin _ Hzero). simpl in Hmin.
    inversion Hbox as [| ? ? [Hx0 Hx1] _]; subst.
    assert (Hx : x == 0) by nra.
    rewrite Hret. simpl. unfold entry_of, get_name. simpl.
    now rewrite (round2_proper x 0 Hx).
  - destruct (Qle_bool_cases R (c * 100)) as [[E' H'] | [E' H']]; rewrite E'.
    + now apply single_course_result.
    + rewrite (infeasible_beyond_max_points solve Hex _ ctc cwa target Hne Hpos);
        [reflexivity |].
      fold R. lra.
Qed.

Lemma one_course_closed_form_witness :
  predict_scores_cvxpy reference_solver [course "A" 7] 3 0 6
  = Returned ([ {| name := "A"; credit := 7; score := PyFloat 8.57 |} ],
              cp.OPTIMAL).
Proof.
  exact (one_course_closed_form reference_solver "A" 7 3 0 6
           reference_solver_exact eq_refl).
Defined.

(** * The other page: carousel and click counters (aura_web.py) *)

Section Aura.

Local Open Scope Z_scope.

(** After any presses of "Prev" and "Next", from the initial index 0, the
    index is one of 0, 1, 2: [testimonials[index]] is always in range. *)
Theorem testimonial_index_in_range :
  forall bs : list aura.button,
    0 <= fold_left aura.press bs 0 < aura.n_testimonials.
Proof.
  intros bs.
  assert (H : forall i, 0 <= i < aura.n_testimonials ->
                        0 <= fold_left aura.press bs i < aura.n_testimonials).
  { induction bs as [| b bs IH]; intros i Hi; simpl; [exact Hi |].
    apply IH. destruct b; unfold aura.press, aura.prev, aura.next;
      apply Z.mod_pos_bound; reflexivity. }
  apply H. unfold aura.n_testimonials. lia.
Qed.

(** On an index in range, "Next" undoes "Prev", "Prev" undoes "Next", and
    three presses of "Next" come back to where they started. *)
Theorem prev_next_round_trip :
  forall i : Z,
    0 <= i < aura.n_testimonials ->
    aura.next (aura.prev i) = i
    /\ aura.prev (aura.next i) = i
    /\ aura.next (aura.next (aura.next i)) = i.
Proof.
  intros i Hi. unfold aura.n_testimonials in Hi.
  assert (Hcases : i = 0 \/ i = 1 \/ i = 2) by lia.
  destruct Hcases as [-> | [-> | ->]]; repeat split; reflexivity.
Qed.

Lemma prev_next_round_trip_witness :
  aura.next (aura.prev 0) = 0
  /\ aura.prev (aura.next 0) = 0
  /\ aura.next (aura.next (aura.next 0)) = 0.
Proof.
  apply (prev_next_round_trip 0). unfold aura.n_testimonials. lia.
Defined.

Lemma get_setitem_same (clicks : aura.clicks_dict) (label : string) (v d : Z) :
  aura.get (aura.setitem clicks label v) label d = v.
Proof.
  induction clicks as [| [k w] rest IH]; simpl.
  - now rewrite String.eqb_refl.
  - destruct (String.eqb k label) eqn:E; simpl; rewrite E; auto.
Qed.

Lemma get_setitem_other (clicks : aura.clicks_dict) (label other : string)
    (v d : Z) :
  other <> label ->
  aura.get (aura.setitem clicks label v) other d = aura.get clicks other d.
Proof.
  intros Hne. induction clicks as [| [k w] rest IH]; simpl.
  - destruct (String.eqb_spec label other); [congruence | reflexivity].
  - destruct (String.eqb_spec k label) as [E | N]; simpl.
    + subst k. destruct (String.eqb_spec label other); [congruence | reflexivity].
    + destruct (String.eqb k other); auto.
Qed.

Lemma setitem_keys (clicks : aura.clicks_dict) (label : string) (v : Z) :
  map fst (aura.setitem clicks label v)
  = if existsb (String.eqb label) (map fst clicks)
    then map fst clicks
    else map fst clicks ++ [label].
Proof.
  induction clicks as [| [k w] rest IH]; simpl; [reflexivity |].
  rewrite (String.eqb_sym label k).
  destruct (String.eqb k label); simpl; [reflexivity |].
  rewrite IH. now destruct (existsb (String.eqb label) (map fst rest)).
Qed.

Lemma track_clicks_get (labels : list string) (label : string) :
  forall c : aura.clicks_dict,
    aura.get (fold_left (fun c l => aura.track_click l c) labels c) label 0
    = aura.get c label 0 + Z.of_nat (count_occ string_dec labels label).
Proof.
  induction labels as [| l labels IH]; intros c; simpl; [lia |].
  rewrite IH. unfold aura.track_click.
  destruct (string_dec l label) as [E | N].
  - subst l. rewrite get_setitem_same. lia.
  - rewrite get_setitem_other by congruence. lia.
Qed.

Lemma track_clicks_keys (labels : list string) :
  forall c : aura.clicks_dict,
    NoDup (map fst c) ->
    NoDup (map fst (fold_left (fun c l => aura.track_click l c) labels c)).
Proof.
  induction labels as [| l labels IH]; intros c Hc; cbn [fold_left];
    [exact Hc |].
  apply IH. unfold aura.track_click. rewrite setitem_keys.
  destruct (existsb (String.eqb l) (map fst c)) eqn:E; [exact Hc |].
  apply NoDup_app; [exact Hc | repeat constructor; intros [] |].
  intros k Hk [Hl | []]. subst k.
  assert (Hex : existsb (String.eqb l) (map fst c) = true).
  { apply existsb_exists. exists l. split; [exact Hk | apply String.eqb_refl]. }
  congruence.
Qed.

(** After any sequence of tracked clicks on an empty dict, the count
    stored for a label is the number of times it was tracked (0 by default
    for a label never tracked), and no key occurs twice. *)
Theorem track_click_counts :
  forall (labels : list string) (label : string),
    let clicks := fold_left (fun c l => aura.track_click l c) labels [] in
    aura.get clicks label 0 = Z.of_nat (count_occ string_dec labels label)
    /\ NoDup (map fst clicks).
Proof.
  intros labels label clicks. unfold clicks. split.
  - rewrite track_clicks_get. simpl. lia.
  - apply track_clicks_keys. constructor.
Qed.

End Aura.

(** * Targets, order and additional courses *)

Section Verdict.

Variable solve : cp.Problem -> outcome cp.Solution.
Hypothesis solve_exact : exact_solver solve.

(** Under the contract the status is decided by the comparison of the
    threshold with the maximum. *)
Lemma status_decided (courses : list Course) (ctc cwa target : Q) :
  courses <> [] -> positive_credits courses ->
  exists results st,
    predict_scores_cvxpy solve courses ctc cwa target = Returned (results, st)
    /\ (required_points courses ctc cwa target <= max_points courses ->
        st = cp.OPTIMAL)
    /\ (max_points courses < required_points courses ctc cwa target ->
        st = cp.INFEASIBLE).
Proof.
  intros Hne Hpos.
  destruct (Qlt_le_dec (max_points courses)
              (required_points courses ctc cwa target)) as [Hgt | Hle].
  - exists (unavailable_results 0 courses), cp.INFEASIBLE.
    split; [now apply infeasible_beyond_max_points |].
    split; [intros H; lra | reflexivity].
  - destruct (predict_within_reach solve solve_exact courses ctc cwa target
                Hne Hle) as [v [_ Hret]].
    exists (scored_entries 0 courses v), cp.OPTIMAL.
    split; [exact Hret |]. split; [reflexivity | intros H; lra].
Qed.

End Verdict.

Lemma sum_app (l1 l2 : list Q) : np.sum (l1 ++ l2) == np.sum l1 + np.sum l2.
Proof.
  induction l1 as [| x l1 IH]; simpl; [lra |]. rewrite IH. lra.
Qed.

Lemma sum_permutation (l1 l2 : list Q) :
  Permutation l1 l2 -> np.sum l1 == np.sum l2.
Proof.
  induction 1 as [| x l l' _ IH | x y l | l l' l'' _ IH1 _ IH2]; simpl.
  - reflexivity.
  - rewrite IH. reflexivity.
  - lra.
  - now rewrite IH1.
Qed.

(** The verdict does not depend on the order in which the courses were
    entered: with an exact solver, at least one course and positive
    credits, a course list and any rearrangement of it get the same
    status. *)
Theorem verdict_ignores_order :
  forall (solve : cp.Problem -> outcome cp.Solution)
         (courses rearranged : list Course) (ctc cwa target : Q),
    exact_solver solve ->
    courses <> [] -> positive_credits courses ->
    Permutation courses rearranged ->
    exists results results' st,
      predict_scores_cvxpy solve courses ctc cwa target = Returned (results, st)
      /\ predict_scores_cvxpy solve rearranged ctc cwa target
         = Returned (results', st).
Proof.
  intros solve courses rearranged ctc cwa target Hex Hne Hpos Hperm.
  assert (Hne' : rearranged <> []).
  { intros E. subst rearranged. apply Permutation_sym in Hperm.
    apply Permutation_nil in Hperm. contradiction. }
  assert (Hpos' : positive_credits rearranged).
  { unfold positive_credits in *. rewrite Forall_forall in *.
    intros c Hc. apply Hpos. eapply Permutation_in; [| exact Hc].
    now apply Permutation_sym. }
  assert (HS : np.sum (map course_credit courses)
               == np.sum (map course_credit rearranged)).
  { apply sum_permutation. now apply Permutation_map. }
  assert (HR : required_points courses ctc cwa target
               == required_points rearranged ctc cwa target).
  { unfold required_points. rewrite HS. reflexivity. }
  assert (HM : max_points courses == max_points rearranged).
  { rewrite !sum_credits_max_points, HS. reflexivity. }
  destruct (status_decided solve Hex courses ctc cwa target Hne Hpos)
    as [r [st [Hr [Hin Hout]]]].
  destruct (status_decided solve Hex rearranged ctc cwa target Hne' Hpos')
    as [r' [st' [Hr' [Hin' Hout']]]].
  exists r, r', st. split; [exact Hr |].
  destruct (Qlt_le_dec (max_points courses)
              (required_points courses ctc cwa target)) as [Hgt | Hle].
  - rewrite (Hout Hgt). rewrite Hout' in Hr' by lra. exact Hr'.
  - rewrite (Hin Hle). rewrite Hin' in Hr' by lra. exact Hr'.
Qed.

Lemma verdict_ignores_order_witness :
  exists results results' st,
    predict_scores_cvxpy reference_solver
      [course "A" 2; course "B" 4] 60 70 72 = Returned (results, st)
    /\ predict_scores_cvxpy reference_solver
         [course "B" 4; course "A" 2] 60 70 72 = Returned (results', st).
Proof.
  apply (verdict_ignores_order reference_solver
           [course "A" 2; course "B" 4] [course "B" 4; course "A" 2] 60 70 72).
  - exact reference_solver_exact.
  - discriminate.
  - repeat constructor.
  - apply perm_swap.
Defined.

(** A target of at most 100 that is within reach stays within reach when
    courses of positive credit are added: with an exact solver, a status
    OPTIMAL for a course list gives OPTIMAL for the list extended. *)
Theorem more_courses_never_hurt :
  forall (solve : cp.Problem -> outcome cp.Solution)
         (courses added : list Course) (ctc cwa target : Q)
         (results : list Entry),
    exact_solver solve ->
    courses <> [] -> positive_credits courses -> positive_credits added ->
    target <= 100 ->
    predict_scores_cvxpy solve courses ctc cwa target
    = Returned (results, cp.OPTIMAL) ->
    exists results',
      predict_scores_cvxpy solve (courses ++ added) ctc cwa target
      = Returned (results', cp.OPTIMAL).
Proof.
  intros solve courses added ctc cwa target results Hex Hne Hpos Hadd Ht Hret.
  assert (Hmax : required_points courses ctc cwa target <= max_points courses).
  { destruct (predict_exact solve courses ctc cwa target Hex Hne)
      as [[v [[[_ [Hreq Hbox]] _] _]] | [_ Hno]].
    - simpl in Hreq.
      pose proof (dot_le_max_points courses Hpos v Hbox). lra.
    - rewrite Hno in Hret. inversion Hret. }
  assert (Hne' : courses ++ added <> []).
  { destruct courses; [congruence | discriminate]. }
  assert (Hmax' : required_points (courses ++ added) ctc cwa target
                  <= max_points (courses ++ added)).
  { pose proof (sum_credits_nonneg added Hadd) as Ha.
    rewrite sum_credits_max_points in *.
    unfold required_points in *. rewrite map_app, sum_app.
    set (S := np.sum (map course_credit courses)) in *.
    set (A := np.sum (map course_credit added)) in *. nra. }
  destruct (predict_within_reach solve Hex _ ctc cwa target Hne' Hmax')
    as [v [_ Hv]].
  eauto.
Qed.

Lemma more_courses_never_hurt_witness :
  exists results',
    predict_scores_cvxpy reference_solver (scenarioB ++ [course "C" 2]) 60 70 72
    = Returned (results', cp.OPTIMAL).
Proof.
  apply (more_courses_never_hurt reference_solver scenarioB [course "C" 2]
           60 70 72
           [ {| name := "A"; credit := 3; score := PyFloat 100 |};
             {| name := "B"; credit := 3; score := PyFloat 84 |} ]).
  - exact reference_solver_exact.
  - discriminate.
  - repeat constructor.
  - repeat constructor.
  - vm_compute. discriminate.
  - vm_compute. reflexivity.
Defined.

(** Targets outside [0, 100] are not rejected; with an exact solver, at
    least one course, positive credits and a history with
    [0 <= current_cwa <= 100] over non-negative credits, a target above 100
    is answered INFEASIBLE and a target of 0 or below OPTIMAL. *)
Theorem targets_out_of_range :
  forall (solve : cp.Problem -> outcome cp.Solution)
         (courses : list Course) (ctc cwa target : Q),
    exact_solver solve ->
    courses <> [] -> positive_credits courses ->
    0 <= ctc -> 0 <= cwa -> cwa <= 100 ->
    (100 < target ->
     predict_scores_cvxpy solve courses ctc cwa target
     = Returned (unavailable_results 0 courses, cp.INFEASIBLE))
    /\ (target <= 0 ->
        exists results,
          predict_scores_cvxpy solve courses ctc cwa target
          = Returned (results, cp.OPTIMAL)).
Proof.
  intros solve courses ctc cwa target Hex Hne Hpos Hctc Hc0 Hc1.
  pose proof (sum_credits_pos courses Hne Hpos) as HS.
  pose proof (sum_credits_max_points courses) as HM.
  split.
  - intros Ht. apply infeasible_beyond_max_points; auto.
    unfold required_points.
    set (S := np.sum (map course_credit courses)) in *. nra.
  - intros Ht.
    assert (Hmax : required_points courses ctc cwa target <= max_points courses).
    { unfold required_points.
      set (S := np.sum (map course_credit courses)) in *. nra. }
    destruct (predict_within_reach solve Hex courses ctc cwa target Hne Hmax)
      as [v [_ Hv]].
    eauto.
Qed.

Lemma targets_out_of_range_witness :
  (100 < 120 ->
   predict_scores_cvxpy reference_solver scenarioB 60 70 120
   = Returned (unavailable_results 0 scenarioB, cp.INFEASIBLE))
  /\ (120 <= 0 ->
      exists results,
        predict_scores_cvxpy reference_solver scenarioB 60 70 120
        = Returned (results, cp.OPTIMAL)).
Proof.
  apply (targets_out_of_range reference_solver scenarioB 60 70 120).
  - exact reference_solver_exact.
  - discriminate.
  - repeat constructor.
  - vm_compute. discriminate.
  - vm_compute. discriminate.
  - vm_compute. discriminate.
Defined.
